(** * Fleet logistics: trip / vehicle / driver lifecycle

  A shallow embedding of the Django models and REST actions of
  [project/core/models.py], [project/core/Serializers.py] and
  [project/core/views.py].

  - Database tables are finite maps from primary keys to rows.
  - [DecimalField(decimal_places=2)] values are integers counting
    hundredths, so comparisons of decimals are exact.
  - [DateField] values are day numbers; [timezone.now().date()], the
    UTC date, is the clock reading carried by each request.  The list
    views read [date.today()], the date of the server's time zone,
    instead: it is the [today] they are given, and a statement that
    relates the two clocks says on which days.
  - Python exceptions and HTTP 4xx answers are the [Fail] outcome of a
    state-and-error monad; the database a failing call leaves behind is
    part of the outcome, so "nothing was written" is a statement to
    prove, not a convention.
  - An exception that [dispatch_trip] catches and answers with HTTP 400
    and one that escapes [complete_trip] or [cancel_trip] are the same
    [Fail]: the request did not succeed.
  - Columns that no rule reads (names, plates, notes, timestamps, the
    creating user) are left out of the rows.  Stored rows and the
    validated data a serializer hands over pass the per-column checks
    of the framework: statuses are among the choices by typing,
    required columns are filled in, decimals fit their digits.
  - Where a view assigns [request.data] to a column without a
    serializer ([complete_trip]), the value is kept as the parser
    delivers it and [Model.full_clean] is followed through the column's
    own [clean] ([DecimalField.to_python], [DecimalValidator]) before
    the [clean] hook of the model.
  - The [float] arithmetic of [Vehicle.roi] is IEEE binary64, through
    the executable specification [SpecFloat] of the standard library.
  - An answer is rendered after the writes.  Where rendering can fail
    on what the request brings (a maintenance record posted without a
    start date) the failure is modelled.  The totals of a vehicle,
    which the vehicle serializer renders with twelve digits, are taken
    to fit them. *)

From Stdlib Require Import ZArith Lia SpecFloat.
From Stdlib Require DecimalPos.
From stdpp Require Import gmap list fin_maps.

Local Open Scope Z_scope.

(** ** Rows and tables *)

Module Store.

Inductive VehicleStatus := available | on_trip | in_shop | retired.
Inductive DriverStatus := off_duty | on_duty | suspended.
Inductive TripStatus := draft | dispatched | completed | cancelled.
Inductive MaintenanceStatus := pending | in_progress | done.

#[global] Instance VehicleStatus_eq_dec : EqDecision VehicleStatus.
Proof. solve_decision. Defined.
#[global] Instance DriverStatus_eq_dec : EqDecision DriverStatus.
Proof. solve_decision. Defined.
#[global] Instance TripStatus_eq_dec : EqDecision TripStatus.
Proof. solve_decision. Defined.
#[global] Instance MaintenanceStatus_eq_dec : EqDecision MaintenanceStatus.
Proof. solve_decision. Defined.

(** Primary keys are the positive integers an auto-increment column
    hands out; a key is always truthy in Python. *)
Abbreviation pk := positive.

Record Vehicle := mkVehicle {
  capacity_kg : Z;
  odometer_km : Z;
  v_status : VehicleStatus;
  acquisition_cost : Z
}.

Record Driver := mkDriver {
  license_expiry : Z;
  d_status : DriverStatus
}.

Record Trip := mkTrip {
  vehicle_id : pk;
  driver_id : pk;
  cargo_weight_kg : Z;
  revenue : Z;
  distance_km : Z;
  completed_date : option Z;
  t_status : TripStatus
}.

Record Maintenance := mkMaintenance {
  m_vehicle_id : pk;
  m_status : MaintenanceStatus;
  m_completed_date : option Z;
  cost : Z
}.

Record DB := mkDB {
  vehicles : gmap pk Vehicle;
  drivers : gmap pk Driver;
  trips : gmap pk Trip;
  maintenance_records : gmap pk Maintenance
}.

Definition empty_db : DB := mkDB ∅ ∅ ∅ ∅.

(** Field setters, one per assignment the code performs. *)
Definition set_v_status (s : VehicleStatus) (v : Vehicle) : Vehicle :=
  mkVehicle (capacity_kg v) (odometer_km v) s (acquisition_cost v).
Definition set_d_status (s : DriverStatus) (d : Driver) : Driver :=
  mkDriver (license_expiry d) s.
Definition set_t_status (s : TripStatus) (t : Trip) : Trip :=
  mkTrip (vehicle_id t) (driver_id t) (cargo_weight_kg t) (revenue t)
         (distance_km t) (completed_date t) s.
Definition set_completed_date (d : option Z) (t : Trip) : Trip :=
  mkTrip (vehicle_id t) (driver_id t) (cargo_weight_kg t) (revenue t)
         (distance_km t) d (t_status t).
Definition set_revenue (r : Z) (t : Trip) : Trip :=
  mkTrip (vehicle_id t) (driver_id t) (cargo_weight_kg t) r
         (distance_km t) (completed_date t) (t_status t).
Definition set_distance_km (k : Z) (t : Trip) : Trip :=
  mkTrip (vehicle_id t) (driver_id t) (cargo_weight_kg t) (revenue t)
         k (completed_date t) (t_status t).
Definition set_m_status (s : MaintenanceStatus) (m : Maintenance) : Maintenance :=
  mkMaintenance (m_vehicle_id m) s (m_completed_date m) (cost m).
Definition set_m_completed_date (d : option Z) (m : Maintenance) : Maintenance :=
  mkMaintenance (m_vehicle_id m) (m_status m) d (cost m).

(** The key an INSERT receives: one not yet in the table. *)
Definition new_pk {A} (table : gmap pk A) : pk := fresh (dom table).

End Store.
Export Store.

(** ** Outcomes: a state-and-error monad over the database *)

Module Outcome.

(** One constructor per failure the endpoints report.  The code raises
    [ValidationError] or answers HTTP 400/404 with a message; the
    constructor names are the specification's names for those
    messages. *)
Inductive Error :=
| InvalidTransition   (* "Only Draft trips can be dispatched." and kin *)
| CapacityExceeded    (* "Cargo weight ... exceeds vehicle capacity" *)
| LicenseExpired      (* "... license has expired. Cannot assign." *)
| DriverSuspended     (* "... is suspended. Cannot assign." *)
| VehicleBusy         (* "... is already on a trip." / retire on_trip *)
| VehicleUnavailable  (* "... is In Shop/Retired and cannot be dispatched." *)
| DriverBusy          (* "Cannot suspend a driver currently on duty." *)
| OutOfRange          (* "Odometer cannot decrease." *)
| NotFound            (* get_object() 404, DoesNotExist, invalid pk *)
| InvalidValue        (* a column refuses the value: "Ensure that there are
                         no more than 2 decimal places." and kin *)
| ServerError.        (* an exception while the answer is rendered: HTTP 500 *)

Inductive Result (A : Type) :=
| Ok (a : A)
| Fail (e : Error).
Arguments Ok {A} a.
Arguments Fail {A} e.

#[global] Instance Error_eq_dec : EqDecision Error.
Proof. solve_decision. Defined.

#[global] Instance Result_ret : MRet Result := fun A a => Ok a.
#[global] Instance Result_bind : MBind Result := fun A B f r =>
  match r with
  | Ok a => f a
  | Fail e => Fail e
  end.

(** A computation reads and writes the database and either returns or
    raises; writes made before a raise stay (no transaction wraps the
    request). *)
Definition M (A : Type) : Type := DB -> DB * Result A.

#[global] Instance M_ret : MRet M := fun A a db => (db, Ok a).
#[global] Instance M_bind : MBind M := fun A B f m db =>
  match m db with
  | (db', Ok a) => f a db'
  | (db', Fail e) => (db', Fail e)
  end.

Definition raise {A} (e : Error) : M A := fun db => (db, Fail e).
Definition read {A} (f : DB -> Result A) : M A := fun db => (db, f db).
Definition write (f : DB -> DB) : M unit := fun db => (f db, Ok tt).

(** [Model.objects.get(pk=k)] and following a foreign key. *)
Definition fetch {A} (table : gmap pk A) (k : pk) : Result A :=
  match table !! k with
  | Some row => Ok row
  | None => Fail NotFound
  end.

(** [Model.objects.filter(pk=k).update(...)]: no row, no effect. *)
Definition update_vehicles (k : pk) (f : Vehicle -> Vehicle) : M unit :=
  write (fun db => mkDB (alter f k (vehicles db)) (drivers db) (trips db)
                        (maintenance_records db)).
Definition update_drivers (k : pk) (f : Driver -> Driver) : M unit :=
  write (fun db => mkDB (vehicles db) (alter f k (drivers db)) (trips db)
                        (maintenance_records db)).
Definition update_trips (k : pk) (f : Trip -> Trip) : M unit :=
  write (fun db => mkDB (vehicles db) (drivers db) (alter f k (trips db))
                        (maintenance_records db)).
Definition update_maintenance (k : pk) (f : Maintenance -> Maintenance) : M unit :=
  write (fun db => mkDB (vehicles db) (drivers db) (trips db)
                        (alter f k (maintenance_records db))).

(** [super().save()]: UPDATE the row of an instance that has a key,
    INSERT under a new key otherwise; the key is returned. *)
Definition store_vehicle (self_pk : option pk) (row : Vehicle) : M pk := fun db =>
  let k := default (new_pk (vehicles db)) self_pk in
  (mkDB (<[k := row]> (vehicles db)) (drivers db) (trips db)
        (maintenance_records db), Ok k).
Definition store_driver (self_pk : option pk) (row : Driver) : M pk := fun db =>
  let k := default (new_pk (drivers db)) self_pk in
  (mkDB (vehicles db) (<[k := row]> (drivers db)) (trips db)
        (maintenance_records db), Ok k).
Definition store_trip (self_pk : option pk) (row : Trip) : M pk := fun db =>
  let k := default (new_pk (trips db)) self_pk in
  (mkDB (vehicles db) (drivers db) (<[k := row]> (trips db))
        (maintenance_records db), Ok k).
Definition store_maintenance (self_pk : option pk) (row : Maintenance) : M pk := fun db =>
  let k := default (new_pk (maintenance_records db)) self_pk in
  (mkDB (vehicles db) (drivers db) (trips db)
        (<[k := row]> (maintenance_records db)), Ok k).

(** Drop the returned value of a call made for its effect. *)
Definition void {A} (m : M A) : M unit := _ ← m; mret tt.

End Outcome.
Export Outcome.

(** ** Columns: what [DecimalField.clean] makes of a raw value *)

Module Columns.

(** A Python [Decimal]: [coefficient * 10 ^ exponent]. *)
Record PyDecimal := mkPyDecimal { coefficient : Z; exponent : Z }.

(** A value of [request.data] as it is assigned to a decimal column. *)
Inductive Raw :=
| RNull                      (* JSON null *)
| RFloat (n : Z) (k : nat)   (* a Python float, the dyadic [n / 2^k]: a JSON
                                number written with a fraction or an exponent *)
| RDecimal (d : PyDecimal)   (* any other value in which [Decimal(value)] reads
                                the finite number [d]: a JSON integer, a
                                boolean, numeric text *)
| RInvalid.                  (* any other value that [Decimal(value)] refuses,
                                or reads as NaN or Infinity *)

(** [len(digit_tuple)]: the decimal digits of the coefficient, one for
    zero. *)
Definition nb_digits (n : Z) : Z :=
  match n with
  | 0 => 1
  | Zpos p | Zneg p => Z.of_nat (Decimal.nb_digits (Pos.to_uint p))
  end.

(** [n / d] for [0 <= n], [0 < d], to the nearest integer, ties to the
    even one ([ROUND_HALF_EVEN]). *)
Definition half_even (n d : Z) : Z :=
  let q := n / d in
  match 2 * (n mod d) ?= d with
  | Lt => q
  | Gt => q + 1
  | Eq => if Z.even q then q else q + 1
  end.

(** [float.as_integer_ratio]: the fraction in lowest terms, zero being
    [0 / 1]. *)
Fixpoint lowest_terms (n : Z) (k : nat) : Z * nat :=
  match k with
  | O => (n, O)
  | S k' =>
      if n =? 0 then (0, O)
      else if Z.even n then lowest_terms (n / 2) k' else (n, k)
  end.

(** [Decimal._fix]: round to [prec] significant digits; a carry into
    one digit more drops the last digit. *)
Definition fix_ (prec : Z) (d : PyDecimal) : PyDecimal :=
  let len := nb_digits (coefficient d) in
  if decide (len ≤ prec) then d
  else
    let drop := len - prec in
    let c := half_even (Z.abs (coefficient d)) (10 ^ drop) in
    let s := Z.sgn (coefficient d) in
    if decide (nb_digits c > prec)
    then mkPyDecimal (s * (c / 10)) (exponent d + drop + 1)
    else mkPyDecimal (s * c) (exponent d + drop).

(** [Context(prec=max_digits).create_decimal_from_float]: the exact
    decimal expansion [n * 5^k * 10^-k] of the float, then rounded. *)
Definition create_decimal_from_float (prec : Z) (n : Z) (k : nat) : PyDecimal :=
  let '(n, k) := lowest_terms n k in
  fix_ prec (mkPyDecimal (n * 5 ^ Z.of_nat k) (- Z.of_nat k)).

(** [DecimalField.to_python] *)
Definition to_python (max_digits : Z) (value : Raw) : Result (option PyDecimal) :=
  match value with
  | RNull => Ok None
  | RFloat n k => Ok (Some (create_decimal_from_float max_digits n k))
  | RDecimal d => Ok (Some d)
  | RInvalid => Fail InvalidValue
  end.

(** [DecimalValidator.__call__] *)
Definition DecimalValidator (max_digits decimal_places : Z) (value : PyDecimal)
  : Result unit :=
  let len := nb_digits (coefficient value) in
  let '(digits, decimals) :=
    if decide (exponent value >= 0) then
      (* A positive exponent adds that many trailing zeros. *)
      (if decide (coefficient value ≠ 0) then len + exponent value else len, 0)
    else if decide (Z.abs (exponent value) > len)
    then (Z.abs (exponent value), Z.abs (exponent value))
    else (len, Z.abs (exponent value)) in
  let whole_digits := digits - decimals in
  if decide (digits > max_digits) then Fail InvalidValue
  else if decide (decimals > decimal_places) then Fail InvalidValue
  else if decide (whole_digits > max_digits - decimal_places) then Fail InvalidValue
  else Ok tt.

(** [Field.clean] of a [DecimalField(max_digits, decimal_places=2)]
    that is neither null nor blank: [to_python], [validate] (null is
    refused), [run_validators].  The value is returned in hundredths,
    as the column stores it. *)
Definition clean (max_digits : Z) (value : Raw) : Result Z :=
  value ← to_python max_digits value;
  match value with
  | None => Fail InvalidValue
  | Some d =>
      _ ← DecimalValidator max_digits 2 d;
      Ok (coefficient d * 10 ^ (exponent d + 2))
  end.

(** [f.clean(getattr(self, f.attname), self)] for an attribute that
    holds what the view assigned from the request, or else the value
    loaded from the row. *)
Definition clean_attr (max_digits : Z) (assigned : option Raw) (loaded : Z)
  : Result Z :=
  match assigned with
  | Some value => clean max_digits value
  | None => Ok loaded
  end.

End Columns.

(** ** Vehicles: [Vehicle], [VehicleDetailSerializer], [VehicleViewSet] *)

Module Vehicles.

(** The body of a PATCH/PUT on a vehicle: the keys present in
    [request.data]. *)
Record VehiclePatch := mkVehiclePatch {
  p_capacity_kg : option Z;
  p_odometer_km : option Z;
  p_v_status : option VehicleStatus;
  p_acquisition_cost : option Z
}.

(** [Vehicle.clean]: "Odometer cannot decrease."  Run by
    [full_clean], that is by the admin's model form. *)
Definition clean (self_pk : option pk) (self : Vehicle) : M unit :=
  match self_pk with
  | Some k =>
      old ← read (fun db => fetch (vehicles db) k);
      if decide (odometer_km self < odometer_km old)
      then raise OutOfRange else mret tt
  | None => mret tt
  end.

(** [VehicleDetailSerializer.validate_odometer_km]. *)
Definition validate_odometer_km (instance : option Vehicle) (value : Z) : Result Z :=
  match instance with
  | Some old =>
      if decide (value < odometer_km old) then Fail OutOfRange else Ok value
  | None => Ok value
  end.

(** [ModelSerializer.update]: assign the validated keys. *)
Definition apply_patch (p : VehiclePatch) (v : Vehicle) : Vehicle :=
  mkVehicle (default (capacity_kg v) (p_capacity_kg p))
            (default (odometer_km v) (p_odometer_km p))
            (default (v_status v) (p_v_status p))
            (default (acquisition_cost v) (p_acquisition_cost p)).

(** POST /api/vehicles/ *)
Definition create (row : Vehicle) : M pk :=
  value ← read (fun _ => validate_odometer_km None (odometer_km row));
  store_vehicle None row.

(** PUT/PATCH /api/vehicles/{id}/ *)
Definition update (k : pk) (p : VehiclePatch) : M unit :=
  instance ← read (fun db => fetch (vehicles db) k);
  _ ← match p_odometer_km p with
      | Some value => void (read (fun _ => validate_odometer_km (Some instance) value))
      | None => mret tt
      end;
  void (store_vehicle (Some k) (apply_patch p instance)).

(** The admin change form: [full_clean] then [save]. *)
Definition admin_change (k : pk) (row : Vehicle) : M unit :=
  _ ← read (fun db => fetch (vehicles db) k);
  _ ← clean (Some k) row;
  void (store_vehicle (Some k) row).

(** POST /api/vehicles/{id}/retire/ *)
Definition retire (k : pk) : M unit :=
  vehicle ← read (fun db => fetch (vehicles db) k);
  if decide (v_status vehicle = on_trip) then raise VehicleBusy
  else void (store_vehicle (Some k) (set_v_status retired vehicle)).

End Vehicles.

(** ** Drivers: [Driver], [DriverViewSet] *)

Module Drivers.

(** [Driver.is_license_expired]; [today] is [timezone.now().date()]. *)
Definition is_license_expired (today : Z) (d : Driver) : bool :=
  bool_decide (license_expiry d < today).

(** [Driver.compliance_status] is 'COMPLIANT'. *)
Definition compliant (today : Z) (d : Driver) : Prop :=
  d_status d ≠ suspended ∧ is_license_expired today d = false.

(** POST /api/drivers/ *)
Definition create (row : Driver) : M pk := store_driver None row.

(** POST /api/drivers/{id}/suspend/ *)
Definition suspend (k : pk) : M unit :=
  driver ← read (fun db => fetch (drivers db) k);
  if decide (d_status driver = on_duty) then raise DriverBusy
  else void (store_driver (Some k) (set_d_status suspended driver)).

(** POST /api/drivers/{id}/reinstate/ *)
Definition reinstate (k : pk) : M unit :=
  driver ← read (fun db => fetch (drivers db) k);
  void (store_driver (Some k) (set_d_status off_duty driver)).

End Drivers.

(** ** Trips: [Trip], [TripDetailSerializer], [TripViewSet] *)

Module Trips.

(** [Trip.clean].  [self_pk] is [self.pk]: [None] for an instance not
    yet inserted.  [self.vehicle] and [self.driver] follow the foreign
    keys. *)
Definition clean (today : Z) (self_pk : option pk) (self : Trip) (db : DB)
  : Result unit :=
  (* Cargo weight validation *)
  _ ← (if decide (cargo_weight_kg self ≠ 0) then
         vehicle ← fetch (vehicles db) (vehicle_id self);
         if decide (cargo_weight_kg self > capacity_kg vehicle)
         then Fail CapacityExceeded else Ok tt
       else Ok tt);
  (* Driver compliance validation *)
  _ ← (if decide (t_status self = draft ∨ t_status self = dispatched) then
         driver ← fetch (drivers db) (driver_id self);
         if Drivers.is_license_expired today driver then Fail LicenseExpired
         else if decide (d_status driver = suspended) then Fail DriverSuspended
         else Ok tt
       else Ok tt);
  (* Vehicle availability validation *)
  if decide (t_status self = dispatched) then
    vehicle ← fetch (vehicles db) (vehicle_id self);
    match self_pk with
    | Some k =>
        if decide (v_status vehicle = on_trip) then
          (* Allow update of existing dispatched trip *)
          let existing :=
            filter (fun kt : pk * Trip =>
                      vehicle_id kt.2 = vehicle_id self
                      ∧ t_status kt.2 = dispatched ∧ kt.1 ≠ k) (trips db) in
          if decide (existing ≠ ∅) then Fail VehicleBusy else Ok tt
        else if decide (v_status vehicle = in_shop ∨ v_status vehicle = retired)
        then Fail VehicleUnavailable else Ok tt
    | None =>
        if decide (v_status vehicle = in_shop ∨ v_status vehicle = retired)
        then Fail VehicleUnavailable else Ok tt
    end
  else Ok tt.

(** [Trip.save]: validate, remember the stored status, write the row,
    then cascade onto the vehicle and the driver. *)
Definition save (today : Z) (self_pk : option pk) (self : Trip) : M pk :=
  _ ← read (clean today self_pk self);
  old_status ← match self_pk with
               | Some k =>
                   old ← read (fun db => fetch (trips db) k);
                   mret (Some (t_status old))
               | None => mret None
               end;
  k ← store_trip self_pk self;
  (* When dispatched: lock vehicle and driver *)
  _ ← (if decide (t_status self = dispatched ∧ old_status ≠ Some dispatched) then
         _ ← update_vehicles (vehicle_id self) (set_v_status on_trip);
         update_drivers (driver_id self) (set_d_status on_duty)
       else mret tt);
  (* When completed / cancelled: free vehicle and driver *)
  _ ← (if decide ((t_status self = completed ∨ t_status self = cancelled)
                  ∧ old_status = Some dispatched) then
         _ ← update_vehicles (vehicle_id self) (set_v_status available);
         _ ← update_drivers (driver_id self) (set_d_status off_duty);
         if decide (t_status self = completed)
         then update_trips k (set_completed_date (Some today))
         else mret tt
       else mret tt);
  mret k.

(** The body of a PATCH/PUT on a trip.  [completed_date] is nullable,
    so a present key may carry null. *)
Record TripPatch := mkTripPatch {
  p_vehicle : option pk;
  p_driver : option pk;
  p_cargo_weight_kg : option Z;
  p_revenue : option Z;
  p_distance_km : option Z;
  p_completed_date : option (option Z);
  p_t_status : option TripStatus
}.

(** [TripDetailSerializer.validate], on the values it pulls out of
    [data]: the vehicle and driver it resolved, [cargo] (default 0)
    and [status] (default 'draft'). *)
Definition validate (today : Z) (vehicle : Vehicle) (driver : Driver)
    (cargo : Z) (status : TripStatus) : Result unit :=
  if decide (cargo ≠ 0 ∧ cargo > capacity_kg vehicle) then Fail CapacityExceeded
  else if decide (status = draft ∨ status = dispatched) then
    if Drivers.is_license_expired today driver then Fail LicenseExpired
    else if decide (d_status driver = suspended) then Fail DriverSuspended
    else Ok tt
  else Ok tt.

(** POST /api/trips/ with [TripCreateSerializer]; [row] is the
    validated data with the column defaults (status 'draft', cargo 0)
    filled in, the same defaults [validate] assumes. *)
Definition create (today : Z) (row : Trip) : M pk :=
  _ ← read (fun db =>
        vehicle ← fetch (vehicles db) (vehicle_id row);
        driver ← fetch (drivers db) (driver_id row);
        validate today vehicle driver (cargo_weight_kg row) (t_status row));
  save today None row.

(** [ModelSerializer.update]: assign the validated keys. *)
Definition apply_patch (p : TripPatch) (t : Trip) : Trip :=
  mkTrip (default (vehicle_id t) (p_vehicle p))
         (default (driver_id t) (p_driver p))
         (default (cargo_weight_kg t) (p_cargo_weight_kg p))
         (default (revenue t) (p_revenue p))
         (default (distance_km t) (p_distance_km p))
         (default (completed_date t) (p_completed_date p))
         (default (t_status t) (p_t_status p)).

(** PUT/PATCH /api/trips/{id}/ with [TripDetailSerializer]. *)
Definition update (today : Z) (k : pk) (p : TripPatch) : M unit :=
  instance ← read (fun db => fetch (trips db) k);
  _ ← read (fun db =>
        vehicle ← fetch (vehicles db) (default (vehicle_id instance) (p_vehicle p));
        driver ← fetch (drivers db) (default (driver_id instance) (p_driver p));
        validate today vehicle driver
                 (default 0 (p_cargo_weight_kg p))
                 (default draft (p_t_status p)));
  void (save today (Some k) (apply_patch p instance)).

(** POST /api/trips/{id}/dispatch/ *)
Definition dispatch_trip (today : Z) (k : pk) : M unit :=
  trip ← read (fun db => fetch (trips db) k);
  if decide (t_status trip ≠ draft) then raise InvalidTransition
  else void (save today (Some k) (set_t_status dispatched trip)).

(** The keys of [request.data] that POST .../complete/ may carry.  The
    action reads [distance_km] and [revenue], each as the parser
    delivers it; anything else a client sends, a [completed_date]
    included, is never looked at. *)
Record CompleteData := mkCompleteData {
  rq_distance_km : option Columns.Raw;
  rq_revenue : option Columns.Raw;
  rq_completed_date : option Z
}.

(** [Model.clean_fields], the first half of the [full_clean] that
    [save] starts with, on the instance [complete_trip] saves.  Every
    column cleans the attribute it finds and stores the result back:
    [revenue] is [DecimalField(max_digits=12)], [distance_km] is
    [DecimalField(max_digits=8)]; the other attributes are as loaded.
    [full_clean] goes on to [clean] before it raises, so a request
    refused here and there is answered with both messages; the model
    names the column's. *)
Definition clean_fields (data : CompleteData) (self : Trip) : Result Trip :=
  r ← Columns.clean_attr 12 (rq_revenue data) (revenue self);
  km ← Columns.clean_attr 8 (rq_distance_km data) (distance_km self);
  Ok (set_distance_km km (set_revenue r self)).

(** POST /api/trips/{id}/complete/ : the status test, the assignments
    from [request.data], then [trip.save()]. *)
Definition complete_trip (today : Z) (k : pk) (data : CompleteData) : M unit :=
  trip ← read (fun db => fetch (trips db) k);
  if decide (t_status trip ≠ dispatched) then raise InvalidTransition
  else
    trip ← read (fun _ => clean_fields data trip);
    void (save today (Some k) (set_t_status completed trip)).

(** POST /api/trips/{id}/cancel/ *)
Definition cancel_trip (today : Z) (k : pk) : M unit :=
  trip ← read (fun db => fetch (trips db) k);
  if decide (t_status trip = completed) then raise InvalidTransition
  else void (save today (Some k) (set_t_status cancelled trip)).

End Trips.

(** ** Maintenance: [Maintenance], [MaintenanceViewSet] *)

Module Maint.

(** [Maintenance.save] *)
Definition save (today : Z) (self_pk : option pk) (self : Maintenance) : M pk :=
  old_status ← match self_pk with
               | Some k =>
                   old ← read (fun db => fetch (maintenance_records db) k);
                   mret (Some (m_status old))
               | None => mret None
               end;
  k ← store_maintenance self_pk self;
  (* New maintenance created: send to shop *)
  _ ← (if decide (old_status = None
                  ∧ (m_status self = pending ∨ m_status self = in_progress))
       then update_vehicles (m_vehicle_id self) (set_v_status in_shop)
       else mret tt);
  (* Maintenance completed: return to fleet *)
  _ ← (if decide (m_status self = done ∧ old_status ≠ Some done) then
         _ ← update_vehicles (m_vehicle_id self) (set_v_status available);
         if decide (m_completed_date self = None)
         then update_maintenance k (set_m_completed_date (Some today))
         else mret tt
       else mret tt);
  mret k.

(** [serializer.save()] of POST /api/maintenance/ : the serializer
    has resolved the vehicle key, then [Maintenance.objects.create]. *)
Definition create (today : Z) (row : Maintenance) : M pk :=
  _ ← read (fun db => fetch (vehicles db) (m_vehicle_id row));
  save today None row.

(** POST /api/maintenance/ : [serializer.save()], then the answer is
    rendered from the instance.  [start_date] is
    [DateField(default=timezone.now)]: an instance created without it
    holds a datetime, which the serializer's date field refuses to
    render; the exception escapes after the record and the vehicle
    were written, and no transaction wraps the request. *)
Definition post (today : Z) (start_date : option Z) (row : Maintenance) : M pk :=
  k ← create today row;
  match start_date with
  | Some _ => mret k
  | None => raise ServerError
  end.

(** POST /api/maintenance/{id}/complete/ *)
Definition complete (today : Z) (k : pk) : M unit :=
  record ← read (fun db => fetch (maintenance_records db) k);
  void (save today (Some k) (set_m_status done record)).

End Maint.

(** ** The API as a transition system *)

Module Api.

Inductive Op :=
| VehicleCreate (row : Vehicle)
| VehicleUpdate (k : pk) (p : Vehicles.VehiclePatch)
| VehicleAdminChange (k : pk) (row : Vehicle)
| VehicleRetire (k : pk)
| DriverCreate (row : Driver)
| DriverSuspend (k : pk)
| DriverReinstate (k : pk)
| TripCreate (row : Trip)
| TripUpdate (k : pk) (p : Trips.TripPatch)
| TripDispatch (k : pk)
| TripComplete (k : pk) (data : Trips.CompleteData)
| TripCancel (k : pk)
| MaintenanceCreate (start_date : option Z) (row : Maintenance)
| MaintenanceComplete (k : pk).

(** A request: the operation and the date on the server's clock. *)
Record Request := mkRequest { now : Z; op : Op }.

Definition handle (r : Request) : M unit :=
  match op r with
  | VehicleCreate row => void (Vehicles.create row)
  | VehicleUpdate k p => Vehicles.update k p
  | VehicleAdminChange k row => Vehicles.admin_change k row
  | VehicleRetire k => Vehicles.retire k
  | DriverCreate row => void (Drivers.create row)
  | DriverSuspend k => Drivers.suspend k
  | DriverReinstate k => Drivers.reinstate k
  | TripCreate row => void (Trips.create (now r) row)
  | TripUpdate k p => Trips.update (now r) k p
  | TripDispatch k => Trips.dispatch_trip (now r) k
  | TripComplete k data => Trips.complete_trip (now r) k data
  | TripCancel k => Trips.cancel_trip (now r) k
  | MaintenanceCreate start_date row => void (Maint.post (now r) start_date row)
  | MaintenanceComplete k => Maint.complete (now r) k
  end.

(** Requests are served one after another; a failed one does not stop
    the next. *)
Definition step (db : DB) (r : Request) : DB := (handle r db).1.

Definition run (db : DB) (rs : list Request) : DB := foldl step db rs.

(** The answers given along the way. *)
Fixpoint answers (db : DB) (rs : list Request) : list (Result unit) :=
  match rs with
  | [] => []
  | r :: rs => (handle r db).2 :: answers (step db r) rs
  end.

Definition reachable (db : DB) : Prop := ∃ rs, db = run empty_db rs.

End Api.

(** ** Notions the statements below are written with *)

Module Notions.

(** The database with row [k] of a table replaced. *)
Definition with_driver (db : DB) (k : pk) (d : Driver) : DB :=
  mkDB (vehicles db) (<[k := d]> (drivers db)) (trips db) (maintenance_records db).
Definition with_vehicle (db : DB) (k : pk) (v : Vehicle) : DB :=
  mkDB (<[k := v]> (vehicles db)) (drivers db) (trips db) (maintenance_records db).

(** Every vehicle row of [db] is still in [db'], its odometer no
    lower. *)
Definition odometer_kept (db db' : DB) : Prop :=
  ∀ k v, vehicles db !! k = Some v →
         ∃ v', vehicles db' !! k = Some v' ∧ odometer_km v ≤ odometer_km v'.

(** A computation that never lowers an odometer, whatever it returns. *)
Definition monotone {A} (m : M A) : Prop := ∀ db, odometer_kept db (m db).1.

(** The database after [Trip.save] has stored [row] under [k] and
    cascaded status [vs] onto its vehicle and [ds] onto its driver. *)
Definition cascaded (db : DB) (k : pk) (row : Trip)
    (vs : VehicleStatus) (ds : DriverStatus) : DB :=
  mkDB (alter (set_v_status vs) (vehicle_id row) (vehicles db))
       (alter (set_d_status ds) (driver_id row) (drivers db))
       (<[k := row]> (trips db))
       (maintenance_records db).

(** [cargo_weight_kg] passes the capacity check of [Trip.clean]: it is
    zero (the check is skipped) or within the capacity. *)
Definition cargo_fits (t : Trip) (v : Vehicle) : Prop :=
  cargo_weight_kg t = 0 ∨ cargo_weight_kg t ≤ capacity_kg v.

(** No trip other than [k] is dispatched on vehicle [vid]. *)
Definition no_other_dispatched (db : DB) (k vid : pk) : Prop :=
  ∀ k' t', trips db !! k' = Some t' → k' ≠ k →
           vehicle_id t' = vid → t_status t' ≠ dispatched.

(** At most one dispatched trip per vehicle. *)
Definition at_most_one_dispatched (db : DB) : Prop :=
  ∀ k1 k2 t1 t2,
    trips db !! k1 = Some t1 → trips db !! k2 = Some t2 →
    vehicle_id t1 = vehicle_id t2 →
    t_status t1 = dispatched → t_status t2 = dispatched → k1 = k2.

(** The status changes the lifecycle allows. *)
Definition legal (s s' : TripStatus) : bool :=
  match s, s' with
  | draft, dispatched | dispatched, completed
  | draft, cancelled | dispatched, cancelled => true
  | _, _ => false
  end.

(** The three lifecycle actions and the status each one asks for. *)
Inductive Action := Dispatch | Complete (data : Trips.CompleteData) | Cancel.

Definition target (a : Action) : TripStatus :=
  match a with
  | Dispatch => dispatched
  | Complete _ => completed
  | Cancel => cancelled
  end.

Definition perform (today : Z) (k : pk) (a : Action) : M unit :=
  match a with
  | Dispatch => Trips.dispatch_trip today k
  | Complete data => Trips.complete_trip today k data
  | Cancel => Trips.cancel_trip today k
  end.

End Notions.
Export Notions.

(** ** Worked data: a yard with one vehicle, two drivers, two trips *)

Module Scenario.
Import Api.

Definition on (day : Z) (o : Op) : Request := mkRequest day o.

(** Vehicle 1: capacity 1000 kg, odometer 5000 km, bought for 10000. *)
Definition truck : Vehicle := mkVehicle 100000 500000 available 1000000.
(** Drivers 1 and 2, licences valid until day 20000. *)
Definition dana : Driver := mkDriver 20000 off_duty.
Definition eli : Driver := mkDriver 20000 off_duty.
(** Trips 1 and 2, both drafts on vehicle 1: 500 kg with driver 1,
    10 kg with driver 2. *)
Definition haul : Trip := mkTrip 1 1 50000 0 0 None draft.
Definition parcel : Trip := mkTrip 1 2 1000 0 0 None draft.

Definition yard : DB :=
  run empty_db
    [ on 19000 (VehicleCreate truck);
      on 19000 (DriverCreate dana);
      on 19000 (DriverCreate eli);
      on 19000 (TripCreate haul);
      on 19000 (TripCreate parcel) ].

(** PATCH {"capacity_kg": 400} *)
Definition shrink : Vehicles.VehiclePatch :=
  Vehicles.mkVehiclePatch (Some 40000) None None None.
(** PATCH {"odometer_km": x} *)
Definition odometer_to (x : Z) : Vehicles.VehiclePatch :=
  Vehicles.mkVehiclePatch None (Some x) None None.
(** PATCH {"status": s} on a trip *)
Definition status_to (s : TripStatus) : Trips.TripPatch :=
  Trips.mkTripPatch None None None None None None (Some s).
(** POST .../complete/ with an empty body; with
    {"distance_km": 150, "revenue": "2000.00", "completed_date": day 1},
    a body that tries to choose the completed date; and with
    {"revenue": 1234.56}, a JSON number that the parser reads as the
    float 2714826150374277 / 2^41. *)
Definition no_data : Trips.CompleteData := Trips.mkCompleteData None None None.
Definition backdated : Trips.CompleteData :=
  Trips.mkCompleteData (Some (Columns.RDecimal (Columns.mkPyDecimal 150 0)))
                       (Some (Columns.RDecimal (Columns.mkPyDecimal 200000 (-2))))
                       (Some 1).

(** Vehicle 1 is on trip 1. *)
Definition under_way : DB := run yard [ on 19000 (TripDispatch 1) ].
(** The capacity of vehicle 1 was lowered to 400 kg, trip 1 still a
    draft... *)
Definition shrunk : DB := run yard [ on 19000 (VehicleUpdate 1 shrink) ].
(** ... and lowered while trip 1 was under way. *)
Definition shrunk_under_way : DB :=
  run under_way [ on 19000 (VehicleUpdate 1 shrink) ].
(** Trip 1 was dispatched and completed. *)
Definition delivered : DB :=
  run under_way [ on 19001 (TripComplete 1 no_data) ].
(** A vehicle of negative capacity with a draft trip of no cargo. *)
Definition odd_yard : DB :=
  run empty_db
    [ on 19000 (VehicleCreate (mkVehicle (-100) 0 available 0));
      on 19000 (DriverCreate dana);
      on 19000 (TripCreate (mkTrip 1 1 0 0 0 None draft)) ].
(** Vehicle 1 alone, retired. *)
Definition scrapyard : DB :=
  run empty_db [ on 19000 (VehicleCreate truck); on 19000 (VehicleRetire 1) ].
(** A depot whose rows were posted with the statuses they show:
    vehicle 1 retired, vehicle 2 on a trip, driver 1 on duty, driver 2
    off duty. *)
Definition depot : DB :=
  run empty_db
    [ on 19000 (VehicleCreate (mkVehicle 100000 500000 retired 1000000));
      on 19000 (VehicleCreate (mkVehicle 80000 120000 on_trip 750000));
      on 19000 (DriverCreate (mkDriver 20000 on_duty));
      on 19000 (DriverCreate (mkDriver 20500 off_duty)) ].

End Scenario.

(** ** How a computation treats the database *)

Module Effects.

(** It writes nothing. *)
Definition readonly {A} (m : M A) : Prop := ∀ db, (m db).1 = db.

(** It never raises. *)
Definition unfailing {A} (m : M A) : Prop := ∀ db, ∃ a, (m db).2 = Ok a.

(** When it raises, it has written nothing. *)
Definition all_or_nothing {A} (m : M A) : Prop :=
  ∀ db db' e, m db = (db', Fail e) → db' = db.

(** It leaves one view of the database (a table, say) as it found
    it, whether it returns or raises. *)
Definition keeps {A X} (view : DB → X) (m : M A) : Prop :=
  ∀ db, view (m db).1 = view db.

End Effects.
Export Effects.

(** ** Read side: derived properties and list endpoints *)

Module Reports.

(** [Vehicle.is_available] *)
Definition vehicle_is_available (v : Vehicle) : bool :=
  bool_decide (v_status v = available).

(** [Driver.is_available] *)
Definition driver_is_available (today : Z) (d : Driver) : bool :=
  bool_decide (d_status d = off_duty) && negb (Drivers.is_license_expired today d).

Inductive Compliance := SUSPENDED | LICENSE_EXPIRED | COMPLIANT.

(** [Driver.compliance_status] *)
Definition compliance_status (today : Z) (d : Driver) : Compliance :=
  if decide (d_status d = suspended) then SUSPENDED
  else if Drivers.is_license_expired today d then LICENSE_EXPIRED
  else COMPLIANT.

(** GET /api/vehicles/available/ : the rows the queryset selects. *)
Definition available_vehicles (db : DB) : gmap pk Vehicle :=
  filter (fun kv : pk * Vehicle => v_status kv.2 = available) (vehicles db).

(** GET /api/drivers/available/ ; [today] is [date.today()]. *)
Definition available_drivers (today : Z) (db : DB) : gmap pk Driver :=
  filter (fun kd : pk * Driver =>
            d_status kd.2 = off_duty ∧ license_expiry kd.2 >= today) (drivers db).

(** GET /api/drivers/compliance-alerts/ : three lists; [today] is
    [date.today()]. *)
Record Alerts := mkAlerts {
  expired_license : gmap pk Driver;
  expiring_within_30_days : gmap pk Driver;
  suspended_drivers : gmap pk Driver
}.

Definition compliance_alerts (today : Z) (db : DB) : Alerts :=
  let soon := today + 30 in
  mkAlerts
    (filter (fun kd : pk * Driver => license_expiry kd.2 < today) (drivers db))
    (filter (fun kd : pk * Driver =>
               today ≤ license_expiry kd.2 ∧ license_expiry kd.2 ≤ soon) (drivers db))
    (filter (fun kd : pk * Driver => d_status kd.2 = suspended) (drivers db)).

(** [queryset.filter(...).count()] *)
Definition count {A} (P : A → Prop) `{∀ x, Decision (P x)} (table : gmap pk A) : nat :=
  size (filter (fun kx : pk * A => P kx.2) table).

(** The counts of [DashboardView.get]; [today] is [date.today()]. *)
Record Counts := mkCounts {
  total_vehicles : nat;
  active_fleet : nat;
  vehicles_available : nat;
  vehicles_in_shop : nat;
  vehicles_retired : nat;
  total_trips : nat;
  trips_in_draft : nat;
  trips_dispatched : nat;
  trips_completed : nat;
  total_drivers : nat;
  drivers_on_duty : nat;
  drivers_suspended : nat;
  drivers_expired_license : nat;
  maintenance_alerts : nat
}.

Definition dashboard_counts (today : Z) (db : DB) : Counts :=
  let vehicles_in_shop := count (fun v => v_status v = in_shop) (vehicles db) in
  mkCounts
    (size (vehicles db))
    (count (fun v => v_status v = on_trip) (vehicles db))
    (count (fun v => v_status v = available) (vehicles db))
    vehicles_in_shop
    (count (fun v => v_status v = retired) (vehicles db))
    (size (trips db))
    (count (fun t => t_status t = draft) (trips db))
    (count (fun t => t_status t = dispatched) (trips db))
    (count (fun t => t_status t = completed) (trips db))
    (size (drivers db))
    (count (fun d => d_status d = on_duty) (drivers db))
    (count (fun d => d_status d = suspended) (drivers db))
    (count (fun d => license_expiry d < today) (drivers db))
    vehicles_in_shop.

(** [Sum] over a queryset, with the [or 0] that turns the [None] of an
    empty queryset into zero. *)
Definition sum_of {A} (f : A → Z) (rows : gmap pk A) : Z :=
  map_fold (fun _ x acc => f x + acc) 0 rows.

(** [Vehicle.total_revenue] *)
Definition total_revenue (db : DB) (vehicle : pk) : Z :=
  sum_of revenue
    (filter (fun kt : pk * Trip =>
               vehicle_id kt.2 = vehicle ∧ t_status kt.2 = completed) (trips db)).

(** [Vehicle.total_maintenance_cost] *)
Definition total_maintenance_cost (db : DB) (vehicle : pk) : Z :=
  sum_of cost
    (filter (fun km : pk * Maintenance => m_vehicle_id km.2 = vehicle)
            (maintenance_records db)).

End Reports.

(** ** Binary64: the [float] of Python *)

Module Float64.

Definition float := spec_float.
Definition prec : Z := 53.
Definition emax : Z := 1024.

Definition add : float → float → float := SFadd prec emax.
Definition sub : float → float → float := SFsub prec emax.
Definition mul : float → float → float := SFmul prec emax.
Definition div : float → float → float := SFdiv prec emax.

(** The double nearest to [n / 100] for [0 <= n], with sign [s]: what
    reading a decimal numeral of two places yields. *)
Definition of_hundredths (s : bool) (n : Z) : float :=
  match n with
  | Zpos p => div (S754_finite s p 0) (S754_finite false 100 0)
  | _ => S754_zero s
  end.

(** [float(x)] for a [Decimal] of [n] hundredths. *)
Definition of_decimal (n : Z) : float := of_hundredths (n <? 0) (Z.abs n).

(** [float(n)] for an [int]. *)
Definition of_int (n : Z) : float := binary_normalize prec emax n 0 false.

(** [round(x, 2)]: the multiple of 0.01 nearest to the exact value of
    [x], ties to the even one, read back as a double; an infinity or a
    NaN is returned as it is. *)
Definition round2 (x : float) : float :=
  match x with
  | S754_finite s m e =>
      of_hundredths s
        (if decide (0 ≤ e) then Zpos m * 100 * 2 ^ e
         else Columns.half_even (Zpos m * 100) (2 ^ (- e)))
  | _ => x
  end.

End Float64.

(** ** Money: [Vehicle.roi] and the totals it reads *)

Module Finance.

(** A fuel log: its vehicle and the cost stored with it.  The table of
    fuel logs is passed beside the database. *)
Record FuelLog := mkFuelLog { f_vehicle_id : pk; total_cost : Z }.

(** [Vehicle.total_fuel_cost] *)
Definition total_fuel_cost (fuel_logs : gmap pk FuelLog) (vehicle : pk) : Z :=
  Reports.sum_of total_cost
    (filter (fun kf : pk * FuelLog => f_vehicle_id kf.2 = vehicle) fuel_logs).

(** [Vehicle.total_operational_cost] *)
Definition total_operational_cost (fuel_logs : gmap pk FuelLog) (db : DB)
    (vehicle : pk) : Float64.float :=
  Float64.add (Float64.of_decimal (total_fuel_cost fuel_logs vehicle))
              (Float64.of_decimal (Reports.total_maintenance_cost db vehicle)).

(** [Vehicle.roi] of the vehicle stored as [self] under [k]; [return 0]
    is rendered as the double zero.  Python raises on a zero divisor
    where IEEE yields an infinity; the divisor here is the double
    nearest to a non-zero number of hundredths. *)
Definition roi (fuel_logs : gmap pk FuelLog) (db : DB) (k : pk) (self : Vehicle)
  : Float64.float :=
  if decide (acquisition_cost self = 0) then Float64.of_int 0
  else
    let net := Float64.sub (Float64.of_decimal (Reports.total_revenue db k))
                           (total_operational_cost fuel_logs db k) in
    Float64.round2
      (Float64.mul (Float64.div net (Float64.of_decimal (acquisition_cost self)))
                   (Float64.of_int 100)).

(** Spec: "round(((total completed-trip revenue - total fuel cost -
    total maintenance cost) / acquisition_cost) * 100, 2)", and 0 when
    the acquisition cost is 0, over exact decimals; the result in
    hundredths, a tie going to the even hundredth. *)
Definition roi_spec (fuel_logs : gmap pk FuelLog) (db : DB) (k : pk) (self : Vehicle)
  : Z :=
  if decide (acquisition_cost self = 0) then 0
  else
    let net := Reports.total_revenue db k - total_fuel_cost fuel_logs k
               - Reports.total_maintenance_cost db k in
    Columns.half_even (Z.sgn (acquisition_cost self) * net * 10000)
                      (Z.abs (acquisition_cost self)).

End Finance.

(** ** More notions for statements *)

Module Notions2.

(** The database with one trip row replaced and nothing else touched. *)
Definition with_trip (db : DB) (k : pk) (t : Trip) : DB :=
  mkDB (vehicles db) (drivers db) (<[k := t]> (trips db)) (maintenance_records db).

(** The instance [complete_trip] stores once the columns have cleaned
    [revenue] to [r] and [distance_km] to [km]: status completed, the
    other columns as loaded. *)
Definition completing (r km : Z) (t : Trip) : Trip :=
  mkTrip (vehicle_id t) (driver_id t) (cargo_weight_kg t) r km
         (completed_date t) completed.

(** A maintenance record posted without [start_date]. *)
Definition undated (r : Api.Request) : Prop :=
  match Api.op r with
  | Api.MaintenanceCreate None _ => True
  | _ => False
  end.

(** The database after [Maintenance.save] has stored [rec] under [k]
    and put status [vs] on its vehicle. *)
Definition serviced (db : DB) (k : pk) (rec : Maintenance) (vs : VehicleStatus) : DB :=
  mkDB (alter (set_v_status vs) (m_vehicle_id rec) (vehicles db))
       (drivers db) (trips db)
       (<[k := rec]> (maintenance_records db)).

(** A record as the complete action leaves it: status completed, and
    the completed date it had or, failing that, the server's date. *)
Definition closed (today : Z) (rec : Maintenance) : Maintenance :=
  mkMaintenance (m_vehicle_id rec) done
                (Some (default today (m_completed_date rec))) (cost rec).

(** What [Maintenance.save] makes of a new record: one posted as
    completed is closed on the spot and returns its vehicle to the
    fleet, any other is stored as posted and sends its vehicle to the
    shop. *)
Definition logged (today : Z) (rec : Maintenance) : Maintenance :=
  if decide (m_status rec = done) then closed today rec else rec.
Definition shop_status (rec : Maintenance) : VehicleStatus :=
  if decide (m_status rec = done) then available else in_shop.

(** Every dispatched trip holds its vehicle: the vehicle is stored as
    on_trip. *)
Definition locks_held (db : DB) : Prop :=
  ∀ k t, trips db !! k = Some t → t_status t = dispatched →
         ∃ v, vehicles db !! vehicle_id t = Some v ∧ v_status v = on_trip.

Definition consistent (db : DB) : Prop :=
  at_most_one_dispatched db ∧ locks_held db.

(** Requests that leave the status columns to the lifecycle actions:
    no status key in a PATCH of a vehicle or of a trip, no vehicle key
    in a PATCH of a trip, no trip posted as dispatched, no admin form
    and no maintenance record. *)
Definition lifecycle_only (r : Api.Request) : Prop :=
  match Api.op r with
  | Api.VehicleCreate _ | Api.VehicleRetire _
  | Api.DriverCreate _ | Api.DriverSuspend _ | Api.DriverReinstate _
  | Api.TripDispatch _ | Api.TripComplete _ _ | Api.TripCancel _ => True
  | Api.VehicleUpdate _ p => Vehicles.p_v_status p = None
  | Api.TripCreate row => t_status row ≠ dispatched
  | Api.TripUpdate _ p => Trips.p_t_status p = None ∧ Trips.p_vehicle p = None
  | Api.VehicleAdminChange _ _
  | Api.MaintenanceCreate _ _ | Api.MaintenanceComplete _ => False
  end.

(** What [Trip.save] leaves behind once [clean] has passed, by the
    status [old] the trip was stored with ([None]: a new trip). *)
Definition settle (today : Z) (k : pk) (row : Trip) (old : option TripStatus)
    (db : DB) : DB :=
  if decide (t_status row = dispatched ∧ old ≠ Some dispatched)
  then cascaded db k row on_trip on_duty
  else if decide ((t_status row = completed ∨ t_status row = cancelled)
                  ∧ old = Some dispatched)
  then cascaded db k
         (if decide (t_status row = completed)
          then set_completed_date (Some today) row else row)
         available off_duty
  else with_trip db k row.

End Notions2.
Export Notions2.

(** ** Access: [Permissions.py] and the permission classes of the views *)

Module Access.

(** [User.ROLE_CHOICES] *)
Inductive Role := manager | dispatcher | safety_officer | analyst | driver.

(** [request.user]: the anonymous user, or an authenticated user with
    its role. *)
Inductive Requester := Anonymous | User (role : Role).

Inductive Method := GET | HEAD | OPTIONS | POST | PUT | PATCH | DELETE.

#[global] Instance Role_eq_dec : EqDecision Role.
Proof. solve_decision. Defined.
#[global] Instance Method_eq_dec : EqDecision Method.
Proof. solve_decision. Defined.

(** The permission classes: the six of [Permissions.py] and the
    framework's [IsAuthenticated]. *)
Inductive Permission :=
| IsAuthenticated
| IsManager
| IsManagerOrDispatcher
| IsManagerOrSafetyOfficer
| IsAnalystOrManager
| ReadOnly
| IsManagerOrReadOnly.

(** [request.user and request.user.is_authenticated and
    request.user.role in roles] *)
Definition role_in (roles : list Role) (u : Requester) : bool :=
  match u with
  | Anonymous => false
  | User role => bool_decide (role ∈ roles)
  end.

Definition is_authenticated (u : Requester) : bool :=
  match u with
  | Anonymous => false
  | User _ => true
  end.

Definition safe (m : Method) : bool := bool_decide (m ∈ [GET; HEAD; OPTIONS]).

(** [has_permission] of each class. *)
Definition has_permission (p : Permission) (u : Requester) (m : Method) : bool :=
  match p with
  | IsAuthenticated => is_authenticated u
  | IsManager => role_in [manager] u
  | IsManagerOrDispatcher => role_in [manager; dispatcher] u
  | IsManagerOrSafetyOfficer => role_in [manager; safety_officer] u
  | IsAnalystOrManager => role_in [manager; analyst] u
  | ReadOnly => if negb (is_authenticated u) then false else safe m
  | IsManagerOrReadOnly =>
      if negb (is_authenticated u) then false
      else if safe m then true
      else role_in [manager] u
  end.

(** The viewsets of [views.py] and the actions routed to them: the six
    of a [ModelViewSet] and the extra actions. *)
Inductive ViewSet :=
| UserViewSet | VehicleViewSet | DriverViewSet | TripViewSet
| FuelLogViewSet | MaintenanceViewSet | ExpenseViewSet.

Inductive Action :=
| list_ | create | retrieve | update | partial_update | destroy
| available | retire | roi_report | compliance_alerts | suspend | reinstate
| dispatch_trip | complete_trip | cancel_trip | efficiency_report | complete.

(** The permission classes in force for an action of a viewset:
    [permission_classes] of the class, replaced by those of the
    [@action] decorator, or whatever [get_permissions] returns where the
    viewset overrides it. *)
Definition get_permissions (v : ViewSet) (a : Action) : list Permission :=
  match v with
  | UserViewSet => [IsManager]
  | VehicleViewSet =>
      match a with
      | retire => [IsManager]
      | roi_report => [IsAnalystOrManager]
      | _ => [IsManagerOrDispatcher]
      end
  | DriverViewSet =>
      match a with
      | list_ | retrieve => [IsAuthenticated]
      | _ => [IsManagerOrSafetyOfficer]
      end
  | TripViewSet => [IsManagerOrDispatcher]
  | FuelLogViewSet =>
      match a with
      | efficiency_report => [IsAnalystOrManager]
      | _ => [IsManagerOrDispatcher]
      end
  | MaintenanceViewSet => [IsManagerOrSafetyOfficer]
  | ExpenseViewSet =>
      match a with
      | list_ | retrieve => [IsAuthenticated]
      | _ => [IsAnalystOrManager]
      end
  end.

(** Every endpoint of [core/urls.py]: what the router routes (the
    actions of the seven viewsets and the root view the [DefaultRouter]
    adds) and the seven plain views. *)
Inductive Endpoint :=
| Route (v : ViewSet) (a : Action)
| APIRootView
| LoginView | LogoutView | TokenRefreshView | MeView | ChangePasswordView
| RegisterView | DashboardView.

(** The token views of simplejwt ([LoginView] is one) declare no
    permission class, [RegisterView] declares the empty list, and a
    view that declares nothing gets [DEFAULT_PERMISSION_CLASSES] of the
    settings. *)
Definition permission_classes (e : Endpoint) : list Permission :=
  match e with
  | Route v a => get_permissions v a
  | LoginView | TokenRefreshView | RegisterView => []
  | APIRootView => [IsAuthenticated]
  | LogoutView | MeView | ChangePasswordView | DashboardView => [IsAuthenticated]
  end.

(** [APIView.check_permissions]: every class must grant. *)
Definition check_permissions (e : Endpoint) (u : Requester) (m : Method) : bool :=
  forallb (fun p => has_permission p u m) (permission_classes e).

End Access.

(** ** More worked data *)

Module Scenario2.
Import Api Scenario.

(** A pending repair of vehicle 1, costing 75. *)
Definition ticket : Maintenance := mkMaintenance 1 pending None 7500.
(** The yard with vehicle 1 in the shop for it. *)
Definition in_repair : DB :=
  run yard [ on 19000 (MaintenanceCreate (Some 19000) ticket) ].
(** PATCH {"revenue": 1234.56} *)
Definition reprice : Trips.TripPatch :=
  Trips.mkTripPatch None None None (Some 123456) None None None.
(** A third draft for vehicle 1 and driver 2, 20 kg. *)
Definition crate : Trip := mkTrip 1 2 2000 0 0 None draft.
(** A day in the life of the yard, through the lifecycle actions only. *)
Definition busy_day : list Request :=
  [ on 19000 (VehicleCreate truck); on 19000 (DriverCreate dana);
    on 19000 (DriverCreate eli); on 19000 (TripCreate haul);
    on 19000 (TripCreate parcel); on 19000 (TripDispatch 1);
    on 19000 (TripDispatch 2); on 19001 (TripComplete 1 no_data);
    on 19001 (TripDispatch 2); on 19002 (VehicleRetire 1);
    on 19002 (TripCancel 2); on 19003 (VehicleRetire 1) ].
(** The books of one vehicle bought for 40.00: a completed trip that
    earned 1657.11, a fuel log of 408.63 and a repair of 440.53. *)
Definition ledger : DB :=
  mkDB {[ 1%positive := mkVehicle 100000 0 available 4000 ]}
       {[ 1%positive := dana ]}
       {[ 1%positive := mkTrip 1 1 0 165711 0 (Some 19000) completed ]}
       {[ 1%positive := mkMaintenance 1 done (Some 19000) 44053 ]}.
Definition fuel_ledger : gmap pk Finance.FuelLog :=
  {[ 1%positive := Finance.mkFuelLog 1 40863 ]}.

End Scenario2.

(** * Properties *)

(** Unfold one layer of the monad and of the table primitives. *)
Ltac run_monad :=
  unfold void, read, write, raise, fetch, update_vehicles, update_drivers,
    update_trips, update_maintenance, store_vehicle, store_driver, store_trip,
    store_maintenance, mbind, mret, M_bind, M_ret, Result_bind, Result_ret in *;
  simpl in *.

(** An INSERT never reuses a stored key. *)
Lemma new_pk_fresh {A} (table : gmap pk A) : table !! new_pk table = None.
Proof. apply not_elem_of_dom, is_fresh. Qed.

(** ** Columns *)

Module ColumnFacts.
Import Columns.

(** A JSON integer is accepted exactly when it has no more digits than
    the column has before the point, and is read as that many units. *)
Lemma clean_integer max_digits n :
  clean max_digits (RDecimal (mkPyDecimal n 0))
  = if decide (nb_digits n ≤ max_digits - 2) then Ok (n * 100) else Fail InvalidValue.
Proof.
  unfold clean, to_python, DecimalValidator. simpl.
  repeat (case_decide; simpl); try done; try lia.
Qed.

(** Numeric text with two decimals, ["c.dd"], is accepted exactly when
    its digits fit the column, and is read as it is written. *)
Lemma clean_two_places max_digits c :
  2 ≤ max_digits →
  clean max_digits (RDecimal (mkPyDecimal c (-2)))
  = if decide (nb_digits c ≤ max_digits) then Ok c else Fail InvalidValue.
Proof.
  intros Hmax. unfold clean, to_python, DecimalValidator. simpl.
  assert (1 ≤ nb_digits c) as Hlen.
  { unfold nb_digits. destruct c as [|p|p]; [lia| |];
      (destruct (Pos.to_uint p) eqn:Hp; simpl; try lia;
       by destruct (DecimalPos.Unsigned.to_uint_nonnil p)). }
  repeat (case_decide; simpl); try done; try lia; f_equal; lia.
Qed.

(** More than two decimals are refused, whatever the digits. *)
Lemma clean_more_places max_digits c e :
  e < -2 → clean max_digits (RDecimal (mkPyDecimal c e)) = Fail InvalidValue.
Proof.
  intros He. unfold clean, to_python, DecimalValidator. simpl.
  repeat (case_decide; simpl); try done; lia.
Qed.

(** The JSON number 1234.56 is the float 2714826150374277 / 2^41.  The
    revenue column reads it as 1234.56000000 and the distance column as
    1234.5600, and both refuse the decimal places; 150.5 is the float
    301 / 2, read as 150.5 and accepted; null is refused. *)
Lemma clean_floats :
  create_decimal_from_float 12 2714826150374277 41 = mkPyDecimal 123456000000 (-8)
  ∧ create_decimal_from_float 8 2714826150374277 41 = mkPyDecimal 12345600 (-4)
  ∧ clean 12 (RFloat 2714826150374277 41) = Fail InvalidValue
  ∧ clean 8 (RFloat 2714826150374277 41) = Fail InvalidValue
  ∧ clean 8 (RFloat 301 1) = Ok 15050
  ∧ clean 8 RNull = Fail InvalidValue.
Proof. repeat split; vm_compute; reflexivity. Qed.

End ColumnFacts.

(** ** Drivers *)

Module DriverFacts.

(** C8. Suspending a driver who is on duty is refused with DriverBusy
    and writes nothing; suspending any other driver answers with
    success and stores the driver with status suspended, the licence
    as it was; reinstating answers with success and stores the driver
    with status off_duty whatever the status was, on_duty included.  No
    other row of the database changes. *)
Theorem suspend_reinstate (db : DB) (k : pk) (d : Driver) :
  drivers db !! k = Some d →
  (d_status d = on_duty → Drivers.suspend k db = (db, Fail DriverBusy))
  ∧ (d_status d ≠ on_duty →
     Drivers.suspend k db
     = (mkDB (vehicles db)
             (<[k := mkDriver (license_expiry d) suspended]> (drivers db))
             (trips db) (maintenance_records db), Ok tt))
  ∧ Drivers.reinstate k db
    = (mkDB (vehicles db)
            (<[k := mkDriver (license_expiry d) off_duty]> (drivers db))
            (trips db) (maintenance_records db), Ok tt).
Proof.
  intros Hd. unfold Drivers.suspend, Drivers.reinstate. run_monad.
  rewrite Hd. repeat split; intros; case_decide; done.
Qed.

(** C8 in the depot: driver 1, posted as on duty, cannot be suspended
    and is off duty once reinstated; driver 2, off duty, is stored as
    suspended. *)
Lemma suspend_reinstate_witness :
  d_status <$> drivers Scenario.depot !! 1%positive = Some on_duty
  ∧ Drivers.suspend 1 Scenario.depot = (Scenario.depot, Fail DriverBusy)
  ∧ (Drivers.reinstate 1 Scenario.depot).2 = Ok tt
  ∧ drivers (Drivers.reinstate 1 Scenario.depot).1 !! 1%positive
    = Some (mkDriver 20000 off_duty)
  ∧ (Drivers.suspend 2 Scenario.depot).2 = Ok tt
  ∧ drivers (Drivers.suspend 2 Scenario.depot).1 !! 2%positive
    = Some (mkDriver 20500 suspended).
Proof.
  destruct (suspend_reinstate Scenario.depot 1 (mkDriver 20000 on_duty))
    as (Hbusy & _ & Hre); [reflexivity|].
  destruct (suspend_reinstate Scenario.depot 2 (mkDriver 20500 off_duty))
    as (_ & Hsus & _); [reflexivity|].
  split; [reflexivity|].
  split; [apply Hbusy; reflexivity|].
  rewrite Hre, Hsus by discriminate.
  repeat split; reflexivity.
Defined.

End DriverFacts.

(** ** Vehicles *)

Module VehicleFacts.

(** The retire action: refused while on a trip, otherwise the row is
    stored with status retired. *)
Lemma retire_guard (db : DB) (k : pk) (v : Vehicle) :
  vehicles db !! k = Some v →
  (v_status v = on_trip → Vehicles.retire k db = (db, Fail VehicleBusy))
  ∧ (v_status v ≠ on_trip →
     Vehicles.retire k db = (with_vehicle db k (set_v_status retired v), Ok tt)).
Proof.
  intros Hv. unfold Vehicles.retire. run_monad. rewrite Hv.
  split; intros; case_decide; done.
Qed.

#[local] Instance odometer_kept_preorder : PreOrder odometer_kept.
Proof.
  split.
  - intros db k v Hv. exists v. split; [done | lia].
  - intros db1 db2 db3 H12 H23 k v Hv.
    destruct (H12 k v Hv) as (v2 & Hv2 & Hle2).
    destruct (H23 k v2 Hv2) as (v3 & Hv3 & Hle3).
    exists v3. split; [done | lia].
Qed.

Lemma kept_same_vehicles db db' :
  vehicles db' = vehicles db → odometer_kept db db'.
Proof. intros Heq k v Hv. rewrite Heq. exists v. split; [done | lia]. Qed.

Lemma monotone_ret {A} (a : A) : monotone (mret a).
Proof. intros db. reflexivity. Qed.

Lemma monotone_raise {A} (e : Error) : monotone (@raise A e).
Proof. intros db. reflexivity. Qed.

Lemma monotone_read {A} (f : DB → Result A) : monotone (read f).
Proof. intros db. reflexivity. Qed.

Lemma monotone_bind {A B} (m : M A) (f : A → M B) :
  monotone m → (∀ a, monotone (f a)) → monotone (m ≫= f).
Proof.
  intros Hm Hf db. specialize (Hm db). unfold mbind, M_bind.
  destruct (m db) as [db1 [a|e]]; simpl in *; [|done].
  etransitivity; [exact Hm | apply Hf].
Qed.

Lemma monotone_void {A} (m : M A) : monotone m → monotone (void m).
Proof. intros Hm. apply monotone_bind; [done | intros; apply monotone_ret]. Qed.

Lemma monotone_update_vehicles k f :
  (∀ v, odometer_km v ≤ odometer_km (f v)) → monotone (update_vehicles k f).
Proof.
  intros Hf db j v Hv. simpl. rewrite lookup_alter.
  case_decide as Hkj; [subst j; rewrite Hv; simpl|]; eauto with lia.
Qed.

Lemma monotone_update_drivers k f : monotone (update_drivers k f).
Proof. intros db. by apply kept_same_vehicles. Qed.

Lemma monotone_update_trips k f : monotone (update_trips k f).
Proof. intros db. by apply kept_same_vehicles. Qed.

Lemma monotone_update_maintenance k f : monotone (update_maintenance k f).
Proof. intros db. by apply kept_same_vehicles. Qed.

Lemma monotone_store_driver o row : monotone (store_driver o row).
Proof. intros db. by apply kept_same_vehicles. Qed.

Lemma monotone_store_trip o row : monotone (store_trip o row).
Proof. intros db. by apply kept_same_vehicles. Qed.

Lemma monotone_store_maintenance o row : monotone (store_maintenance o row).
Proof. intros db. by apply kept_same_vehicles. Qed.

(** An INSERT takes an unused key, so it overwrites no row. *)
Lemma monotone_insert_vehicle row : monotone (store_vehicle None row).
Proof.
  intros db j v Hv. simpl. exists v. split; [|lia].
  rewrite lookup_insert_ne; [done|].
  intros <-. rewrite new_pk_fresh in Hv. done.
Qed.

(** Overwriting the row [k] with one whose odometer is no lower. *)
Lemma kept_overwrite db k old row :
  vehicles db !! k = Some old →
  odometer_km old ≤ odometer_km row →
  odometer_kept db (with_vehicle db k row).
Proof.
  intros Hold Hle j v Hv. simpl. rewrite lookup_insert.
  case_decide as Hkj; [subst j|]; eauto with lia.
  exists row. split; [done|]. congruence.
Qed.

Create HintDb monotone.
#[local] Hint Resolve monotone_ret monotone_raise monotone_read monotone_void
  monotone_update_drivers monotone_update_trips monotone_update_maintenance
  monotone_store_driver monotone_store_trip monotone_store_maintenance
  monotone_insert_vehicle : monotone.

(** Break a computation into its binds and branches. *)
Ltac monotone_step :=
  lazymatch goal with
  | |- monotone (_ ≫= _) => apply monotone_bind; [|intros]
  | |- monotone (void _) => apply monotone_void
  | |- monotone (update_vehicles _ (set_v_status _)) =>
      apply monotone_update_vehicles; intros []; simpl; lia
  | |- monotone (if ?c then _ else _) => destruct c
  | |- monotone (match ?o with Some _ => _ | None => _ end) => destruct o
  | |- monotone _ => solve [auto with monotone]
  end.

Lemma monotone_trip_save today o row : monotone (Trips.save today o row).
Proof. unfold Trips.save. repeat monotone_step. Qed.

Lemma monotone_maintenance_save today o row : monotone (Maint.save today o row).
Proof. unfold Maint.save. repeat monotone_step. Qed.

#[local] Hint Resolve monotone_trip_save monotone_maintenance_save : monotone.

Lemma monotone_vehicle_update k p : monotone (Vehicles.update k p).
Proof.
  intros db. unfold Vehicles.update, Vehicles.validate_odometer_km. run_monad.
  destruct (vehicles db !! k) as [old|] eqn:Hold; simpl; [|reflexivity].
  destruct (Vehicles.p_odometer_km p) as [x|] eqn:Hx; simpl.
  - case_decide; simpl; [reflexivity|].
    apply (kept_overwrite db k old); [done | simpl; rewrite Hx; simpl; lia].
  - apply (kept_overwrite db k old); [done | simpl; rewrite Hx; simpl; lia].
Qed.

Lemma monotone_vehicle_admin_change k row : monotone (Vehicles.admin_change k row).
Proof.
  intros db. unfold Vehicles.admin_change, Vehicles.clean. run_monad.
  destruct (vehicles db !! k) as [old|] eqn:Hold; simpl; [|reflexivity].
  case_decide; simpl; [reflexivity|].
  apply (kept_overwrite db k old); [done | lia].
Qed.

Lemma monotone_vehicle_retire k : monotone (Vehicles.retire k).
Proof.
  intros db. unfold Vehicles.retire. run_monad.
  destruct (vehicles db !! k) as [old|] eqn:Hold; simpl; [|reflexivity].
  case_decide; simpl; [reflexivity|].
  apply (kept_overwrite db k old); [done | simpl; lia].
Qed.

Lemma monotone_handle r : monotone (Api.handle r).
Proof.
  unfold Api.handle. destruct (Api.op r);
    auto using monotone_vehicle_update, monotone_vehicle_admin_change,
      monotone_vehicle_retire.
  - unfold Vehicles.create. repeat monotone_step.
  - unfold Drivers.create. repeat monotone_step.
  - unfold Drivers.suspend. repeat monotone_step.
  - unfold Drivers.reinstate. repeat monotone_step.
  - unfold Trips.create. repeat monotone_step.
  - unfold Trips.update. repeat monotone_step.
  - unfold Trips.dispatch_trip. repeat monotone_step.
  - unfold Trips.complete_trip. repeat monotone_step.
  - unfold Trips.cancel_trip. repeat monotone_step.
  - unfold Maint.post, Maint.create. repeat monotone_step.
  - unfold Maint.complete. repeat monotone_step.
Qed.

Lemma run_odometer_kept rs : ∀ db, odometer_kept db (Api.run db rs).
Proof.
  induction rs as [|r rs IH]; intros db; simpl.
  - reflexivity.
  - etransitivity; [apply (monotone_handle r db) | apply IH].
Qed.

(** C7. An update that would lower the stored odometer is rejected
    with a validation error and writes nothing, through the serializer
    as through the model's [clean]; hence after any sequence of
    requests the stored odometer of a vehicle is at least what it
    was. *)
Theorem odometer_never_decreases (db : DB) (k : pk) (v : Vehicle) :
  vehicles db !! k = Some v →
  (∀ p x, Vehicles.p_odometer_km p = Some x → x < odometer_km v →
          Vehicles.update k p db = (db, Fail OutOfRange))
  ∧ (∀ row, odometer_km row < odometer_km v →
            Vehicles.admin_change k row db = (db, Fail OutOfRange))
  ∧ (∀ rs, ∃ v', vehicles (Api.run db rs) !! k = Some v'
                 ∧ odometer_km v ≤ odometer_km v').
Proof.
  intros Hv. repeat split.
  - intros p x Hx Hlt. unfold Vehicles.update, Vehicles.validate_odometer_km.
    run_monad. rewrite Hv, Hx. simpl. case_decide; [done | lia].
  - intros row Hlt. unfold Vehicles.admin_change, Vehicles.clean.
    run_monad. rewrite Hv. simpl. case_decide; [done | lia].
  - intros rs. exact (run_odometer_kept rs db k v Hv).
Qed.

End VehicleFacts.

(** ** Trips *)

Module TripFacts.

Lemma existing_empty (db : DB) (k vid : pk) :
  no_other_dispatched db k vid →
  filter (fun kt : pk * Trip =>
            vehicle_id kt.2 = vid ∧ t_status kt.2 = dispatched ∧ kt.1 ≠ k)
         (trips db) = ∅.
Proof.
  intros Hno. apply map_empty. intros k'. apply map_lookup_filter_None.
  destruct (trips db !! k') as [t'|] eqn:Hk'; [right|by left].
  intros ? [= <-] (Hv & Hs & Hne). simpl in *. by apply (Hno k' t').
Qed.

Lemma existing_nonempty (db : DB) (k k' vid : pk) (t' : Trip) :
  trips db !! k' = Some t' → k' ≠ k →
  vehicle_id t' = vid → t_status t' = dispatched →
  filter (fun kt : pk * Trip =>
            vehicle_id kt.2 = vid ∧ t_status kt.2 = dispatched ∧ kt.1 ≠ k)
         (trips db) ≠ ∅.
Proof.
  intros Hk' Hne Hv Hs Hemp.
  by apply (map_filter_empty_not_lookup _ _ k' t' Hemp).
Qed.

(** The three gates of [Trip.clean] for a trip about to be stored as
    dispatched. *)
Lemma clean_dispatched_ok today db k t v d :
  vehicles db !! vehicle_id t = Some v →
  drivers db !! driver_id t = Some d →
  cargo_fits t v →
  Drivers.compliant today d →
  v_status v ≠ in_shop → v_status v ≠ retired →
  no_other_dispatched db k (vehicle_id t) →
  Trips.clean today (Some k) (set_t_status dispatched t) db = Ok tt.
Proof.
  intros Hv Hd Hcargo [Hsusp Hexp] Hshop Hret Hno.
  unfold Trips.clean. run_monad. rewrite Hv, Hd. simpl. rewrite Hexp.
  rewrite (existing_empty db k (vehicle_id t) Hno).
  destruct Hcargo; repeat (case_decide; simpl); try done; try lia;
    intuition congruence.
Qed.

(** [Trip.save] of a trip turned dispatched, once [clean] passes. *)
Lemma save_dispatched today db k t :
  trips db !! k = Some t →
  t_status t ≠ dispatched →
  Trips.clean today (Some k) (set_t_status dispatched t) db = Ok tt →
  Trips.save today (Some k) (set_t_status dispatched t) db
  = (cascaded db k (set_t_status dispatched t) on_trip on_duty, Ok k).
Proof.
  intros Ht Hs Hclean. unfold Trips.save. run_monad.
  rewrite Hclean, Ht. simpl.
  repeat (case_decide; simpl); try done; naive_solver.
Qed.

(** Dispatching a draft trip that passes the gates. *)
Lemma dispatch_ok today db k t v d :
  trips db !! k = Some t → t_status t = draft →
  vehicles db !! vehicle_id t = Some v →
  drivers db !! driver_id t = Some d →
  cargo_fits t v →
  Drivers.compliant today d →
  v_status v ≠ in_shop → v_status v ≠ retired →
  no_other_dispatched db k (vehicle_id t) →
  Trips.dispatch_trip today k db
  = (cascaded db k (set_t_status dispatched t) on_trip on_duty, Ok tt).
Proof.
  intros Ht Hs Hv Hd Hcargo Hcomp Hshop Hret Hno.
  unfold Trips.dispatch_trip.
  pose proof (save_dispatched today db k t Ht) as Hsave.
  rewrite Hs in Hsave.
  specialize (Hsave ltac:(done)
    (clean_dispatched_ok today db k t v d Hv Hd Hcargo Hcomp Hshop Hret Hno)).
  run_monad. rewrite Ht. simpl. rewrite Hs.
  case_decide; [done|]. simpl in *. by rewrite Hsave.
Qed.

(** A draft trip on a vehicle that is on a trip with another
    dispatched trip is refused, and nothing is written. *)
Lemma dispatch_busy today db k t v d k' t' :
  trips db !! k = Some t → t_status t = draft →
  vehicles db !! vehicle_id t = Some v →
  drivers db !! driver_id t = Some d →
  cargo_fits t v →
  Drivers.compliant today d →
  v_status v = on_trip →
  trips db !! k' = Some t' → k' ≠ k →
  vehicle_id t' = vehicle_id t → t_status t' = dispatched →
  Trips.dispatch_trip today k db = (db, Fail VehicleBusy).
Proof.
  intros Ht Hs Hv Hd Hcargo [Hsusp Hexp] Hon Hk' Hne Hvid Hs'.
  pose proof (existing_nonempty db k k' (vehicle_id t) t' Hk' Hne Hvid Hs') as Hex.
  unfold Trips.dispatch_trip, Trips.save, Trips.clean. run_monad.
  rewrite Ht. simpl. rewrite Hs. case_decide; [done|]. simpl.
  rewrite Hv, Hd. simpl. rewrite Hexp.
  destruct Hcargo; repeat (case_decide; simpl); try done; try lia; naive_solver.
Qed.

(** C1 (as amended). A draft trip whose cargo passes the capacity
    check, whose driver is compliant and whose vehicle is neither in
    the shop nor retired and carries no other dispatched trip is
    dispatched: the vehicle becomes on_trip and the driver on_duty.
    Dispatching afterwards a second draft trip on that vehicle, itself
    passing the cargo and driver checks, fails with VehicleBusy and
    writes nothing. *)
Theorem dispatch_then_busy today db k t v d :
  trips db !! k = Some t → t_status t = draft →
  vehicles db !! vehicle_id t = Some v →
  drivers db !! driver_id t = Some d →
  cargo_fits t v →
  Drivers.compliant today d →
  v_status v ≠ in_shop → v_status v ≠ retired →
  no_other_dispatched db k (vehicle_id t) →
  ∃ db', Trips.dispatch_trip today k db = (db', Ok tt)
    ∧ vehicles db' !! vehicle_id t = Some (set_v_status on_trip v)
    ∧ drivers db' !! driver_id t = Some (set_d_status on_duty d)
    ∧ trips db' !! k = Some (set_t_status dispatched t)
    ∧ ∀ today2 k2 t2 d2,
        k2 ≠ k → trips db !! k2 = Some t2 → t_status t2 = draft →
        vehicle_id t2 = vehicle_id t → cargo_fits t2 v →
        drivers db !! driver_id t2 = Some d2 → Drivers.compliant today2 d2 →
        Trips.dispatch_trip today2 k2 db' = (db', Fail VehicleBusy).
Proof.
  intros Ht Hs Hv Hd Hcargo Hcomp Hshop Hret Hno.
  eexists. split; [by eapply dispatch_ok|].
  assert (vehicles (cascaded db k (set_t_status dispatched t) on_trip on_duty)
            !! vehicle_id t = Some (set_v_status on_trip v)) as Hv'.
  { simpl. by rewrite lookup_alter_eq, Hv. }
  repeat split; [done | | |].
  - simpl. by rewrite lookup_alter_eq, Hd.
  - simpl. by rewrite lookup_insert_eq.
  - intros today2 k2 t2 d2 Hne Ht2 Hs2 Hvid Hcargo2 Hd2 [Hsusp2 Hexp2].
    assert (∃ d2', drivers (cascaded db k (set_t_status dispatched t) on_trip on_duty)
                     !! driver_id t2 = Some d2'
                   ∧ Drivers.compliant today2 d2') as (d2' & Hd2' & Hcomp2').
    { simpl. rewrite lookup_alter. case_decide as Hsame.
      - rewrite Hsame, Hd2. simpl. eexists. split; [done|].
        by split.
      - exists d2. by rewrite Hd2. }
    eapply (dispatch_busy today2 _ k2 t2 (set_v_status on_trip v) d2' k
                          (set_t_status dispatched t)); try done.
    + simpl. by rewrite lookup_insert_ne.
    + by rewrite Hvid.
    + simpl. by rewrite lookup_insert_eq.
Qed.

(** Only the cargo gate of [Trip.clean] applies to a trip about to
    be stored as completed. *)
Lemma clean_completed_ok today db o row v :
  t_status row = completed →
  vehicles db !! vehicle_id row = Some v →
  cargo_fits row v →
  Trips.clean today o row db = Ok tt.
Proof.
  intros Hs Hv Hcargo. unfold Trips.clean. run_monad. rewrite Hv, Hs. simpl.
  destruct Hcargo; repeat (case_decide; simpl); try done; try lia; naive_solver.
Qed.

(** [Trip.save] of a dispatched trip turned completed, once [clean]
    passes. *)
Lemma save_completed today db k old row :
  trips db !! k = Some old → t_status old = dispatched →
  t_status row = completed →
  Trips.clean today (Some k) row db = Ok tt →
  Trips.save today (Some k) row db
  = (cascaded db k (set_completed_date (Some today) row) available off_duty, Ok k).
Proof.
  intros Hold Hso Hs Hclean. unfold Trips.save. run_monad.
  rewrite Hclean, Hold, Hso, Hs. simpl.
  repeat (case_decide; simpl); try done; try naive_solver.
  by rewrite alter_insert_eq.
Qed.


(** [clean_fields] by what the two columns make of their attributes. *)
Lemma clean_fields_ok data t r km :
  Columns.clean_attr 12 (Trips.rq_revenue data) (revenue t) = Ok r →
  Columns.clean_attr 8 (Trips.rq_distance_km data) (distance_km t) = Ok km →
  Trips.clean_fields data t = Ok (set_distance_km km (set_revenue r t)).
Proof. unfold Trips.clean_fields. intros -> ->. reflexivity. Qed.


Lemma clean_fields_inv data t row :
  Trips.clean_fields data t = Ok row →
  ∃ r km,
    Columns.clean_attr 12 (Trips.rq_revenue data) (revenue t) = Ok r
    ∧ Columns.clean_attr 8 (Trips.rq_distance_km data) (distance_km t) = Ok km
    ∧ row = set_distance_km km (set_revenue r t).
Proof.
  unfold Trips.clean_fields.
  destruct (Columns.clean_attr 12 _ _) as [r|]; simpl; [|done].
  destruct (Columns.clean_attr 8 _ _) as [km|]; simpl; [|done].
  intros [= <-]. by exists r, km.
Qed.


(** Completing a dispatched trip whose cargo passes the capacity check
    and whose values the columns accept: the whole database
    afterwards. *)
Lemma complete_ok today db k t v data r km :
  trips db !! k = Some t → t_status t = dispatched →
  vehicles db !! vehicle_id t = Some v →
  cargo_fits t v →
  Columns.clean_attr 12 (Trips.rq_revenue data) (revenue t) = Ok r →
  Columns.clean_attr 8 (Trips.rq_distance_km data) (distance_km t) = Ok km →
  Trips.complete_trip today k data db
  = (cascaded db k (set_completed_date (Some today) (completing r km t))
              available off_duty, Ok tt).
Proof.
  intros Ht Hs Hv Hcargo Hr Hkm.
  assert (Trips.save today (Some k) (completing r km t) db
          = (cascaded db k (set_completed_date (Some today) (completing r km t))
                      available off_duty, Ok k)) as Hsave.
  { apply (save_completed today db k t (completing r km t) Ht Hs eq_refl).
    by apply (clean_completed_ok today db (Some k) _ v). }
  unfold Trips.complete_trip. run_monad. rewrite Ht. simpl.
  case_decide; [done|]. rewrite (clean_fields_ok data t r km Hr Hkm).
  change (set_t_status completed (set_distance_km km (set_revenue r t)))
    with (completing r km t).
  by rewrite Hsave.
Qed.


(** C5 (as amended). Dispatching a draft trip whose cargo weight is
    not zero and exceeds the capacity of its vehicle fails with
    CapacityExceeded, and the database (so the status of the trip, of
    the vehicle and of the driver) is what it was.  A trip that is not
    a draft is refused as an invalid transition before any cargo
    check. *)
Theorem dispatch_over_capacity today db k t v :
  trips db !! k = Some t →
  vehicles db !! vehicle_id t = Some v →
  cargo_weight_kg t ≠ 0 →
  cargo_weight_kg t > capacity_kg v →
  (t_status t = draft →
     Trips.dispatch_trip today k db = (db, Fail CapacityExceeded))
  ∧ (t_status t ≠ draft →
     Trips.dispatch_trip today k db = (db, Fail InvalidTransition)).
Proof.
  intros Ht Hv Hnz Hgt.
  unfold Trips.dispatch_trip, Trips.save, Trips.clean. run_monad.
  rewrite Ht. simpl. split; intros Hs; case_decide; try done.
  simpl. case_decide; [|done]. rewrite Hv. simpl. case_decide; [done | lia].
Qed.

(** Through the dispatch, complete and cancel actions, a change of
    status the lifecycle does not allow is refused and nothing is
    written. *)
Lemma actions_refuse_illegal today db k t a :
  trips db !! k = Some t →
  t_status t ≠ target a →
  legal (t_status t) (target a) = false →
  perform today k a db = (db, Fail InvalidTransition).
Proof.
  intros Ht Hne Hillegal.
  destruct a; simpl in *;
    unfold Trips.dispatch_trip, Trips.complete_trip, Trips.cancel_trip;
    run_monad; rewrite Ht; simpl;
    destruct (t_status t); try done; by case_decide.
Qed.

End TripFacts.

(** ** Maintenance *)

Module MaintFacts.

(** Updating a stored row in place is overwriting it. *)
Lemma alter_stored {A} (f : A → A) (table : gmap pk A) k x :
  table !! k = Some x → alter f k table = <[k := f x]> table.
Proof.
  intros Hk. rewrite <- (insert_id table k x Hk) at 1. apply alter_insert_eq.
Qed.

(** [serializer.save()] of a posted record whose vehicle is stored: the
    whole database afterwards. *)
Lemma create_ok today db row v :
  vehicles db !! m_vehicle_id row = Some v →
  Maint.create today row db
  = (serviced db (new_pk (maintenance_records db)) (logged today row)
              (shop_status row),
     Ok (new_pk (maintenance_records db))).
Proof.
  intros Hv. unfold Maint.create, Maint.save, logged, shop_status, closed, serviced.
  run_monad. rewrite Hv. simpl.
  destruct row as [vid st [cd|] c]; simpl in *; destruct st;
    repeat (case_decide; simpl); try done; try (exfalso; intuition congruence);
    rewrite ?alter_insert_eq; done.
Qed.

(** The answer of POST /api/maintenance/ by whether the body carries
    [start_date]; the database is the same either way. *)
Lemma post_ok today db row v start_date :
  vehicles db !! m_vehicle_id row = Some v →
  Maint.post today start_date row db
  = (serviced db (new_pk (maintenance_records db)) (logged today row)
              (shop_status row),
     match start_date with
     | Some _ => Ok (new_pk (maintenance_records db))
     | None => Fail ServerError
     end).
Proof.
  intros Hv. unfold Maint.post, mbind, M_bind.
  rewrite (create_ok today db row v Hv). by destruct start_date.
Qed.

(** A record posted for a vehicle that is not stored is refused by the
    serializer, and nothing is written. *)
Lemma post_unknown_vehicle today db row start_date :
  vehicles db !! m_vehicle_id row = None →
  Maint.post today start_date row db = (db, Fail NotFound).
Proof.
  intros Hv. unfold Maint.post, Maint.create. run_monad. by rewrite Hv.
Qed.

(** C10. A maintenance record created with status completed does not
    send its vehicle to the shop: the vehicle is stored as available,
    whatever its status was, its other columns as they were, and the
    record is stored as completed with the completed date it came with
    or, when it came with none, with the server's date.  Nothing else
    is written.  That is the database whether the request carries a
    start date, and is answered with the key of the record, or carries
    none, and is answered with a server error after the writes. *)
Theorem create_completed_record today db row v start_date :
  m_status row = done →
  vehicles db !! m_vehicle_id row = Some v →
  let k := new_pk (maintenance_records db) in
  let db' :=
    mkDB (<[m_vehicle_id row := mkVehicle (capacity_kg v) (odometer_km v) available
                                           (acquisition_cost v)]> (vehicles db))
         (drivers db) (trips db)
         (<[k := mkMaintenance (m_vehicle_id row) done
                               (Some (default today (m_completed_date row)))
                               (cost row)]> (maintenance_records db)) in
  maintenance_records db !! k = None
  ∧ Maint.create today row db = (db', Ok k)
  ∧ Maint.post today start_date row db
    = (db', match start_date with
            | Some _ => Ok k
            | None => Fail ServerError
            end).
Proof.
  intros Hs Hv. simpl. split; [apply new_pk_fresh|].
  rewrite (post_ok today db row v start_date Hv), (create_ok today db row v Hv).
  unfold serviced, logged, shop_status, closed.
  rewrite !decide_True by done.
  rewrite (alter_stored _ _ _ v Hv). done.
Qed.

End MaintFacts.

(** ** Worked traces *)

Module Traces.
Import Api Scenario TripFacts.

(** A table scan that proves [no_other_dispatched] on a stored table. *)
Lemma no_dispatched_at_all db k vid :
  bool_decide (map_Forall (fun (_ : pk) t' => t_status t' ≠ dispatched) (trips db))
  = true →
  no_other_dispatched db k vid.
Proof.
  intros Hall%bool_decide_eq_true k' t' Hk' _ _. exact (Hall k' t' Hk').
Qed.

(** Every request that builds the yard is answered with success. *)
Lemma yard_answers :
  answers empty_db
    [ on 19000 (VehicleCreate truck); on 19000 (DriverCreate dana);
      on 19000 (DriverCreate eli); on 19000 (TripCreate haul);
      on 19000 (TripCreate parcel) ]
  = [Ok tt; Ok tt; Ok tt; Ok tt; Ok tt].
Proof. vm_compute. reflexivity. Qed.

(** C1 (as amended) in the yard: trip 1 is dispatched, then trip 2 on
    the same vehicle is refused. *)
Lemma dispatch_then_busy_witness :
  ∃ db', Trips.dispatch_trip 19000 1 yard = (db', Ok tt)
    ∧ v_status <$> vehicles db' !! 1%positive = Some on_trip
    ∧ d_status <$> drivers db' !! 1%positive = Some on_duty
    ∧ Trips.dispatch_trip 19000 2 db' = (db', Fail VehicleBusy).
Proof.
  destruct (dispatch_then_busy 19000 yard 1 haul truck dana)
    as (db' & Hrun & Hv & Hd & _ & Hbusy).
  - reflexivity.
  - reflexivity.
  - reflexivity.
  - reflexivity.
  - right. simpl. lia.
  - split; [discriminate | reflexivity].
  - discriminate.
  - discriminate.
  - apply no_dispatched_at_all. vm_compute. reflexivity.
  - exists db'. split; [exact Hrun|].
    split; [simpl in Hv; rewrite Hv; reflexivity|].
    split; [simpl in Hd; rewrite Hd; reflexivity|].
    apply (Hbusy 19000 2%positive parcel eli).
    + discriminate.
    + reflexivity.
    + reflexivity.
    + reflexivity.
    + right. simpl. lia.
    + reflexivity.
    + split; [discriminate | reflexivity].
Defined.

(** Against C1 as stated: trip 1 is a draft, its vehicle is available
    with no dispatched trip, its driver is compliant, and the dispatch
    is refused, because the 500 kg of cargo exceed the capacity the
    vehicle now has. *)
Lemma dispatch_refused_over_capacity :
  trips shrunk !! 1%positive = Some haul
  ∧ t_status haul = draft
  ∧ vehicles shrunk !! vehicle_id haul
    = Some (mkVehicle 40000 500000 available 1000000)
  ∧ no_other_dispatched shrunk 1 (vehicle_id haul)
  ∧ drivers shrunk !! driver_id haul = Some dana
  ∧ Drivers.compliant 19000 dana
  ∧ Trips.dispatch_trip 19000 1 shrunk = (shrunk, Fail CapacityExceeded).
Proof.
  split; [reflexivity|]. split; [reflexivity|]. split; [reflexivity|].
  split; [apply no_dispatched_at_all; vm_compute; reflexivity|].
  split; [reflexivity|].
  split; [split; [discriminate | reflexivity]|].
  vm_compute. reflexivity.
Qed.



(** C5 (as amended) on trip 1 once the capacity was lowered. *)
Lemma dispatch_over_capacity_witness :
  Trips.dispatch_trip 19000 1 shrunk = (shrunk, Fail CapacityExceeded).
Proof.
  destruct (dispatch_over_capacity 19000 shrunk 1 haul
              (mkVehicle 40000 500000 available 1000000)) as [Hdraft _].
  - reflexivity.
  - reflexivity.
  - discriminate.
  - simpl. lia.
  - apply Hdraft. reflexivity.
Defined.

(** Against C5 as stated: the cargo of trip 1 (500 kg) exceeds the
    capacity of its vehicle (400 kg), yet dispatching it fails as an
    invalid transition, the trip being under way already; and a draft
    trip of no cargo on a vehicle of negative capacity is dispatched,
    the cargo check being skipped for a cargo of zero. *)
Lemma over_capacity_other_outcomes :
  (cargo_weight_kg <$> trips shrunk_under_way !! 1%positive = Some 50000
   ∧ capacity_kg <$> vehicles shrunk_under_way !! 1%positive = Some 40000
   ∧ Trips.dispatch_trip 19000 1 shrunk_under_way
     = (shrunk_under_way, Fail InvalidTransition))
  ∧ (cargo_weight_kg <$> trips odd_yard !! 1%positive = Some 0
     ∧ capacity_kg <$> vehicles odd_yard !! 1%positive = Some (-100)
     ∧ (Trips.dispatch_trip 19000 1 odd_yard).2 = Ok tt).
Proof. repeat split; vm_compute; reflexivity. Qed.

(** C2, the code at the failing input. Vehicle 1 is on trip 1; a new
    trip posted with status dispatched on the same vehicle is stored:
    [Trip.clean] looks for another dispatched trip only when the
    instance already has a key.  Two trips are then dispatched on
    vehicle 1. *)
Theorem second_dispatched_trip_created :
  let booking := mkTrip 1 2 1000 0 0 None dispatched in
  let db' := (Trips.create 19000 booking under_way).1 in
  v_status <$> vehicles under_way !! 1%positive = Some on_trip
  ∧ trips under_way !! 1%positive = Some (set_t_status dispatched haul)
  ∧ (Trips.create 19000 booking under_way).2 = Ok 3%positive
  ∧ trips db' !! 1%positive = Some (set_t_status dispatched haul)
  ∧ trips db' !! 3%positive = Some booking
  ∧ reachable db'
  ∧ ¬ at_most_one_dispatched db'.
Proof.
  repeat split; try (vm_compute; reflexivity).
  { exists [ on 19000 (VehicleCreate truck); on 19000 (DriverCreate dana);
             on 19000 (DriverCreate eli); on 19000 (TripCreate haul);
             on 19000 (TripCreate parcel); on 19000 (TripDispatch 1);
             on 19000 (TripCreate (mkTrip 1 2 1000 0 0 None dispatched)) ].
    vm_compute. reflexivity. }
  intros Hone.
  specialize (Hone 1%positive 3%positive (set_t_status dispatched haul)
                   (mkTrip 1 2 1000 0 0 None dispatched)).
  discriminate Hone; vm_compute; reflexivity.
Qed.

(** C3, the code at the failing input. A PATCH of the status column
    goes through [Trip.save], which checks no transition: a completed
    trip becomes a draft again, or dispatched again (locking vehicle
    and driver anew), and a draft becomes completed directly. *)
Theorem update_changes_status_freely :
  t_status <$> trips delivered !! 1%positive = Some completed
  ∧ (Trips.update 19002 1 (status_to draft) delivered).2 = Ok tt
  ∧ t_status <$> trips (Trips.update 19002 1 (status_to draft) delivered).1
                   !! 1%positive = Some draft
  ∧ (Trips.update 19002 1 (status_to dispatched) delivered).2 = Ok tt
  ∧ t_status <$> trips (Trips.update 19002 1 (status_to dispatched) delivered).1
                   !! 1%positive = Some dispatched
  ∧ v_status <$> vehicles (Trips.update 19002 1 (status_to dispatched) delivered).1
                   !! 1%positive = Some on_trip
  ∧ t_status <$> trips yard !! 2%positive = Some draft
  ∧ (Trips.update 19002 2 (status_to completed) yard).2 = Ok tt
  ∧ t_status <$> trips (Trips.update 19002 2 (status_to completed) yard).1
                   !! 2%positive = Some completed.
Proof. repeat split; vm_compute; reflexivity. Qed.

(** C6, the code at the failing input. Vehicle 1 is retired; logging
    a pending maintenance record for it stores it as in_shop, and
    completing the record stores it as available. *)
Theorem retired_vehicle_returns :
  let ticket := mkMaintenance 1 pending None 0 in
  let in_repair := (Maint.create 19001 ticket scrapyard).1 in
  v_status <$> vehicles scrapyard !! 1%positive = Some retired
  ∧ (Maint.create 19001 ticket scrapyard).2 = Ok 1%positive
  ∧ v_status <$> vehicles in_repair !! 1%positive = Some in_shop
  ∧ (Maint.complete 19002 1 in_repair).2 = Ok tt
  ∧ v_status <$> vehicles (Maint.complete 19002 1 in_repair).1 !! 1%positive
    = Some available.
Proof. repeat split; vm_compute; reflexivity. Qed.

(** C7 on vehicle 1: a lower reading is refused, and after a raise, a
    refused lowering and a retirement the odometer is no lower. *)
Lemma odometer_never_decreases_witness :
  Vehicles.update 1 (odometer_to 499999) yard = (yard, Fail OutOfRange)
  ∧ ∃ v', vehicles (run yard [ on 19000 (VehicleUpdate 1 (odometer_to 600000));
                               on 19001 (VehicleUpdate 1 (odometer_to 550000));
                               on 19002 (VehicleRetire 1) ])
            !! 1%positive = Some v'
          ∧ odometer_km truck ≤ odometer_km v'.
Proof.
  destruct (VehicleFacts.odometer_never_decreases yard 1 truck) as (Hrej & _ & Hrun).
  - reflexivity.
  - split.
    + apply (Hrej _ 499999); [reflexivity | simpl; lia].
    + apply Hrun.
Defined.

(** C10 in the depot: a completed repair logged for vehicle 1, which
    is retired, without a start date or a completed date, and one for
    vehicle 2, which is on a trip, with both. *)
Lemma create_completed_record_witness :
  vehicles depot !! 1%positive = Some (mkVehicle 100000 500000 retired 1000000)
  ∧ Maint.post 19003 None (mkMaintenance 1 done None 2500) depot
    = (mkDB (<[1%positive := mkVehicle 100000 500000 available 1000000]>
               (vehicles depot))
            (drivers depot) (trips depot)
            {[ 1%positive := mkMaintenance 1 done (Some 19003) 2500 ]},
       Fail ServerError)
  ∧ vehicles depot !! 2%positive = Some (mkVehicle 80000 120000 on_trip 750000)
  ∧ Maint.post 19003 (Some 19001) (mkMaintenance 2 done (Some 19002) 2500) depot
    = (mkDB (<[2%positive := mkVehicle 80000 120000 available 750000]>
               (vehicles depot))
            (drivers depot) (trips depot)
            {[ 1%positive := mkMaintenance 2 done (Some 19002) 2500 ]},
       Ok 1%positive).
Proof.
  destruct (MaintFacts.create_completed_record 19003 depot
              (mkMaintenance 1 done None 2500)
              (mkVehicle 100000 500000 retired 1000000) None)
    as (_ & _ & Hundated); [reflexivity | reflexivity |].
  destruct (MaintFacts.create_completed_record 19003 depot
              (mkMaintenance 2 done (Some 19002) 2500)
              (mkVehicle 80000 120000 on_trip 750000) (Some 19001))
    as (_ & _ & Hdated); [reflexivity | reflexivity |].
  split; [reflexivity|]. split; [exact Hundated|].
  split; [reflexivity|]. exact Hdated.
Defined.

End Traces.

(** ** Failed requests write nothing *)

Module EffectFacts.

Lemma readonly_ret {A} (a : A) : readonly (mret a).
Proof. intros db. reflexivity. Qed.

Lemma readonly_raise {A} (e : Error) : readonly (@raise A e).
Proof. intros db. reflexivity. Qed.

Lemma readonly_read {A} (f : DB → Result A) : readonly (read f).
Proof. intros db. reflexivity. Qed.

Lemma readonly_bind {A B} (m : M A) (f : A → M B) :
  readonly m → (∀ a, readonly (f a)) → readonly (m ≫= f).
Proof.
  intros Hm Hf db. specialize (Hm db). unfold mbind, M_bind.
  destruct (m db) as [db1 [a|e]]; simpl in *; subst db1; [apply Hf | done].
Qed.

Lemma unfailing_ret {A} (a : A) : unfailing (mret a).
Proof. intros db. by exists a. Qed.

Lemma unfailing_write f : unfailing (write f).
Proof. intros db. by exists tt. Qed.

Lemma unfailing_bind {A B} (m : M A) (f : A → M B) :
  unfailing m → (∀ a, unfailing (f a)) → unfailing (m ≫= f).
Proof.
  intros Hm Hf db. destruct (Hm db) as [a Ha]. unfold mbind, M_bind.
  destruct (m db) as [db1 [a'|e]]; simpl in *; [apply Hf | done].
Qed.

Lemma unfailing_store_vehicle o row : unfailing (store_vehicle o row).
Proof. intros db. by eexists. Qed.

Lemma unfailing_store_driver o row : unfailing (store_driver o row).
Proof. intros db. by eexists. Qed.

Lemma unfailing_store_trip o row : unfailing (store_trip o row).
Proof. intros db. by eexists. Qed.

Lemma unfailing_store_maintenance o row : unfailing (store_maintenance o row).
Proof. intros db. by eexists. Qed.

Lemma all_or_nothing_readonly {A} (m : M A) : readonly m → all_or_nothing m.
Proof. intros Hm db db' e Hrun. specialize (Hm db). by rewrite Hrun in Hm. Qed.

Lemma all_or_nothing_unfailing {A} (m : M A) : unfailing m → all_or_nothing m.
Proof.
  intros Hm db db' e Hrun. destruct (Hm db) as [a Ha].
  rewrite Hrun in Ha. simpl in Ha. done.
Qed.

(** Checks first: a read-only prefix may raise, what follows must be
    all-or-nothing itself. *)
Lemma all_or_nothing_after_read {A B} (m : M A) (f : A → M B) :
  readonly m → (∀ a, all_or_nothing (f a)) → all_or_nothing (m ≫= f).
Proof.
  intros Hm Hf db db' e. specialize (Hm db). unfold mbind, M_bind.
  destruct (m db) as [db1 [a|e1]]; simpl in *; subst db1.
  - apply Hf.
  - by intros [= <- _].
Qed.

(** Writes last: once the part that may raise is through, nothing that
    follows raises. *)
Lemma all_or_nothing_before_writes {A B} (m : M A) (f : A → M B) :
  all_or_nothing m → (∀ a, unfailing (f a)) → all_or_nothing (m ≫= f).
Proof.
  intros Hm Hf db db' e. specialize (Hm db). unfold mbind, M_bind.
  destruct (m db) as [db1 [a|e1]]; simpl in *.
  - destruct (Hf a db1) as [b Hb]. intros Hrun. rewrite Hrun in Hb. done.
  - intros [= <- _]. by apply (Hm db1 e1).
Qed.

Lemma all_or_nothing_void {A} (m : M A) : all_or_nothing m → all_or_nothing (void m).
Proof.
  intros Hm. apply all_or_nothing_before_writes; [done|].
  intros a. apply unfailing_ret.
Qed.

Create HintDb effects.
#[local] Hint Resolve readonly_ret readonly_raise readonly_read unfailing_ret
  unfailing_write unfailing_store_vehicle unfailing_store_driver
  unfailing_store_trip unfailing_store_maintenance : effects.

Ltac readonly_step :=
  lazymatch goal with
  | |- readonly (_ ≫= _) => apply readonly_bind; [|intros]
  | |- readonly (void _) => apply readonly_bind; [|intros]
  | |- readonly (if ?c then _ else _) => destruct c
  | |- readonly (match ?o with Some _ => _ | None => _ end) => destruct o
  | |- readonly _ => solve [auto with effects]
  end.

Ltac unfailing_step :=
  lazymatch goal with
  | |- unfailing (_ ≫= _) => apply unfailing_bind; [|intros]
  | |- unfailing (void _) => apply unfailing_bind; [|intros]
  | |- unfailing (update_vehicles _ _) => apply unfailing_write
  | |- unfailing (update_drivers _ _) => apply unfailing_write
  | |- unfailing (update_trips _ _) => apply unfailing_write
  | |- unfailing (update_maintenance _ _) => apply unfailing_write
  | |- unfailing (if ?c then _ else _) => destruct c
  | |- unfailing (match ?o with Some _ => _ | None => _ end) => destruct o
  | |- unfailing _ => solve [auto with effects]
  end.

(** Peel the read-only checks off the front, then show that the writes
    that follow cannot raise. *)
Ltac all_or_nothing_step :=
  lazymatch goal with
  | |- all_or_nothing (if ?c then _ else _) => destruct c
  | |- all_or_nothing (match ?o with Some _ => _ | None => _ end) => destruct o
  | |- all_or_nothing (raise _) => apply all_or_nothing_readonly, readonly_raise
  | |- all_or_nothing (void _) => apply all_or_nothing_void
  | |- all_or_nothing (_ ≫= _) =>
      first [ apply all_or_nothing_unfailing; solve [repeat unfailing_step]
            | apply all_or_nothing_after_read;
              [solve [repeat readonly_step] | intros] ]
  | |- all_or_nothing _ =>
      first [ apply all_or_nothing_unfailing; solve [repeat unfailing_step]
            | apply all_or_nothing_readonly; solve [repeat readonly_step] ]
  end.

Lemma all_or_nothing_trip_save today o row : all_or_nothing (Trips.save today o row).
Proof. unfold Trips.save. repeat all_or_nothing_step. Qed.

Lemma all_or_nothing_maintenance_save today o row :
  all_or_nothing (Maint.save today o row).
Proof. unfold Maint.save. repeat all_or_nothing_step. Qed.

#[local] Hint Resolve all_or_nothing_trip_save all_or_nothing_maintenance_save
  : effects.

Lemma all_or_nothing_maintenance_create today row :
  all_or_nothing (Maint.create today row).
Proof. unfold Maint.create. repeat all_or_nothing_step. auto with effects. Qed.

(** Every request but a maintenance record posted without a start
    date. *)
Lemma all_or_nothing_handle r : ¬ undated r → all_or_nothing (Api.handle r).
Proof.
  unfold undated, Api.handle. destruct (Api.op r) as [| | | | | | | | | | | |[sd|] row|];
    intros Hdated.
  - unfold Vehicles.create. repeat all_or_nothing_step.
  - unfold Vehicles.update. repeat all_or_nothing_step.
  - unfold Vehicles.admin_change, Vehicles.clean. repeat all_or_nothing_step.
  - unfold Vehicles.retire. repeat all_or_nothing_step.
  - unfold Drivers.create. repeat all_or_nothing_step.
  - unfold Drivers.suspend. repeat all_or_nothing_step.
  - unfold Drivers.reinstate. repeat all_or_nothing_step.
  - unfold Trips.create. repeat all_or_nothing_step. auto with effects.
  - unfold Trips.update. repeat all_or_nothing_step. auto with effects.
  - unfold Trips.dispatch_trip. repeat all_or_nothing_step. auto with effects.
  - unfold Trips.complete_trip. repeat all_or_nothing_step. auto with effects.
  - unfold Trips.cancel_trip. repeat all_or_nothing_step. auto with effects.
  - unfold Maint.post. apply all_or_nothing_void.
    apply all_or_nothing_before_writes;
      [apply all_or_nothing_maintenance_create | intros; apply unfailing_ret].
  - by destruct Hdated.
  - unfold Maint.complete. repeat all_or_nothing_step. auto with effects.
Qed.

(** X1. A request that is answered with a failure has written nothing,
    with one exception.  A maintenance record posted without a start
    date for a stored vehicle is answered with a server error after the
    record was stored and the status of its vehicle changed.  In every
    other request every check comes before the first write. *)
Theorem failed_request_writes_nothing (r : Api.Request) (db db' : DB) (e : Error) :
  Api.handle r db = (db', Fail e) →
  (¬ undated r → db' = db)
  ∧ (∀ row, Api.op r = Api.MaintenanceCreate None row →
       (vehicles db !! m_vehicle_id row = None ∧ e = NotFound ∧ db' = db)
       ∨ (is_Some (vehicles db !! m_vehicle_id row) ∧ e = ServerError
          ∧ maintenance_records db !! new_pk (maintenance_records db) = None
          ∧ db' = serviced db (new_pk (maintenance_records db))
                           (logged (Api.now r) row) (shop_status row))).
Proof.
  intros Hrun. split.
  - intros Hdated. by apply (all_or_nothing_handle r Hdated db db' e).
  - intros row Hop. unfold Api.handle in Hrun. rewrite Hop in Hrun.
    unfold void, mbind, M_bind in Hrun.
    destruct (vehicles db !! m_vehicle_id row) as [v|] eqn:Hv.
    + right. rewrite (MaintFacts.post_ok (Api.now r) db row v None Hv) in Hrun.
      injection Hrun as <- <-. repeat split; [by eexists | apply new_pk_fresh].
    + left. rewrite (MaintFacts.post_unknown_vehicle (Api.now r) db row None Hv) in Hrun.
      by injection Hrun as <- <-.
Qed.

End EffectFacts.

(** ** The trip lifecycle, transition by transition *)

Module LifecycleFacts.
Import TripFacts.

(** [Trip.save] of a stored trip when neither cascade applies: the row
    is written and nothing else. *)
Lemma save_plain today db k old row :
  trips db !! k = Some old →
  Trips.clean today (Some k) row db = Ok tt →
  (t_status row = dispatched → t_status old = dispatched) →
  (t_status row = completed ∨ t_status row = cancelled → t_status old ≠ dispatched) →
  Trips.save today (Some k) row db = (with_trip db k row, Ok k).
Proof.
  intros Hold Hclean Hd Hc. unfold Trips.save. run_monad.
  rewrite Hclean, Hold. simpl.
  repeat (case_decide; simpl); try done; exfalso; intuition congruence.
Qed.

(** [Trip.save] of a dispatched trip turned cancelled. *)
Lemma save_cancelled today db k old row :
  trips db !! k = Some old → t_status old = dispatched →
  t_status row = cancelled →
  Trips.clean today (Some k) row db = Ok tt →
  Trips.save today (Some k) row db = (cascaded db k row available off_duty, Ok k).
Proof.
  intros Hold Hso Hs Hclean. unfold Trips.save. run_monad.
  rewrite Hclean, Hold, Hso, Hs. simpl.
  repeat (case_decide; simpl); try done; exfalso; intuition congruence.
Qed.

(** Only the cargo gate of [Trip.clean] applies to a cancelled row. *)
Lemma clean_cancelled_ok today db o row v :
  t_status row = cancelled →
  vehicles db !! vehicle_id row = Some v →
  cargo_fits row v →
  Trips.clean today o row db = Ok tt.
Proof.
  intros Hs Hv Hcargo. unfold Trips.clean. run_monad. rewrite Hv, Hs. simpl.
  destruct Hcargo; repeat (case_decide; simpl); try done; try lia;
    intuition congruence.
Qed.

(** Cancelling a dispatched trip whose cargo passes the capacity check:
    the whole database afterwards. *)
Lemma cancel_ok today db k t v :
  trips db !! k = Some t → t_status t = dispatched →
  vehicles db !! vehicle_id t = Some v →
  cargo_fits t v →
  Trips.cancel_trip today k db
  = (cascaded db k (set_t_status cancelled t) available off_duty, Ok tt).
Proof.
  intros Ht Hs Hv Hcargo.
  pose proof (save_cancelled today db k t (set_t_status cancelled t) Ht Hs eq_refl
                (clean_cancelled_ok today db (Some k) (set_t_status cancelled t) v
                   eq_refl Hv Hcargo)) as Hsave.
  unfold Trips.cancel_trip. run_monad. rewrite Ht. simpl.
  case_decide; [congruence|]. simpl. by rewrite Hsave.
Qed.


(** [Trip.clean] reads four columns of the row: cargo, vehicle, driver
    and status. *)
Lemma clean_ext today o db r1 r2 :
  cargo_weight_kg r1 = cargo_weight_kg r2 →
  vehicle_id r1 = vehicle_id r2 →
  driver_id r1 = driver_id r2 →
  t_status r1 = t_status r2 →
  Trips.clean today o r1 db = Trips.clean today o r2 db.
Proof.
  destruct r1, r2. simpl. intros -> -> -> ->. reflexivity.
Qed.

(** A dispatch that [Trip.clean] refuses answers with that refusal and
    writes nothing. *)
Lemma dispatch_refused today db k t e :
  trips db !! k = Some t → t_status t = draft →
  Trips.clean today (Some k) (set_t_status dispatched t) db = Fail e →
  Trips.dispatch_trip today k db = (db, Fail e).
Proof.
  intros Ht Hs Hclean. unfold Trips.dispatch_trip, Trips.save. run_monad.
  rewrite Ht. simpl. rewrite Hs. case_decide; [done|]. simpl.
  by rewrite Hclean.
Qed.

(** The availability gate of [Trip.clean]. *)
Lemma clean_refuses_unavailable today db o row v d :
  t_status row = dispatched →
  vehicles db !! vehicle_id row = Some v →
  drivers db !! driver_id row = Some d →
  cargo_fits row v →
  Drivers.compliant today d →
  v_status v = in_shop ∨ v_status v = retired →
  Trips.clean today o row db = Fail VehicleUnavailable.
Proof.
  intros Hs Hv Hd Hcargo [Hsusp Hexp] Hst.
  unfold Trips.clean. run_monad. rewrite Hs, Hv, Hd. simpl. rewrite Hexp.
  destruct o, Hcargo, Hst; repeat (case_decide; simpl); try done; try lia;
    exfalso; intuition congruence.
Qed.

(** X3. Dispatching a draft trip whose vehicle is in the shop or
    retired is refused with VehicleUnavailable, whatever else holds of
    the trip, and nothing is written. *)
Theorem dispatch_unavailable today db k t v d :
  trips db !! k = Some t → t_status t = draft →
  vehicles db !! vehicle_id t = Some v →
  drivers db !! driver_id t = Some d →
  cargo_fits t v →
  Drivers.compliant today d →
  v_status v = in_shop ∨ v_status v = retired →
  Trips.dispatch_trip today k db = (db, Fail VehicleUnavailable).
Proof.
  intros Ht Hs Hv Hd Hcargo Hcomp Hst.
  apply (dispatch_refused today db k t _ Ht Hs).
  by apply (clean_refuses_unavailable today db (Some k) _ v d).
Qed.

(** The driver gate of [Trip.clean], by what it finds. *)
Lemma clean_refuses_driver today db o row v d :
  t_status row = draft ∨ t_status row = dispatched →
  vehicles db !! vehicle_id row = Some v →
  drivers db !! driver_id row = Some d →
  cargo_fits row v →
  (Drivers.is_license_expired today d = true →
     Trips.clean today o row db = Fail LicenseExpired)
  ∧ (Drivers.is_license_expired today d = false → d_status d = suspended →
     Trips.clean today o row db = Fail DriverSuspended).
Proof.
  intros Hs Hv Hd Hcargo. unfold Trips.clean. run_monad. rewrite Hv, Hd. simpl.
  split; [intros Hexp | intros Hexp Hsus]; rewrite Hexp;
    destruct Hcargo; repeat (case_decide; simpl); try done; try lia;
    exfalso; intuition congruence.
Qed.

(** X4. The driver gate. Dispatching a draft trip whose cargo fits is
    refused with LicenseExpired when the licence of its driver has
    expired (suspended or not) and with DriverSuspended when the driver
    is suspended with a valid licence, in both cases writing nothing;
    so a driver whose compliance status is not COMPLIANT is never
    dispatched.  Posting a new draft or dispatched trip with that
    driver is refused the same way. *)
Theorem driver_gate today db k t v d :
  trips db !! k = Some t → t_status t = draft →
  vehicles db !! vehicle_id t = Some v →
  drivers db !! driver_id t = Some d →
  cargo_fits t v →
  (Drivers.is_license_expired today d = true →
     Trips.dispatch_trip today k db = (db, Fail LicenseExpired))
  ∧ (Drivers.is_license_expired today d = false → d_status d = suspended →
     Trips.dispatch_trip today k db = (db, Fail DriverSuspended))
  ∧ (Reports.compliance_status today d ≠ Reports.COMPLIANT →
     ∃ e, Trips.dispatch_trip today k db = (db, Fail e))
  ∧ (∀ row,
       vehicle_id row = vehicle_id t → driver_id row = driver_id t →
       cargo_fits row v →
       t_status row = draft ∨ t_status row = dispatched →
       (Drivers.is_license_expired today d = true →
          Trips.create today row db = (db, Fail LicenseExpired))
       ∧ (Drivers.is_license_expired today d = false → d_status d = suspended →
          Trips.create today row db = (db, Fail DriverSuspended))).
Proof.
  intros Ht Hs Hv Hd Hcargo.
  destruct (clean_refuses_driver today db (Some k) (set_t_status dispatched t) v d)
    as [Hexpired Hsuspended]; [by right | done | done | done |].
  split; [|split; [|split]].
  - intros Hexp. apply (dispatch_refused today db k t _ Ht Hs). by apply Hexpired.
  - intros Hexp Hsus. apply (dispatch_refused today db k t _ Ht Hs).
    by apply Hsuspended.
  - unfold Reports.compliance_status. intros Hnc.
    destruct (Drivers.is_license_expired today d) eqn:Hexp.
    + eexists. apply (dispatch_refused today db k t _ Ht Hs). by apply Hexpired.
    + case_decide; [|done]. eexists.
      apply (dispatch_refused today db k t _ Ht Hs). by apply Hsuspended.
  - intros row Hrv Hrd Hrcargo Hst. split.
    + intros Hexp. unfold Trips.create, Trips.validate. run_monad.
      rewrite Hrv, Hrd, Hv, Hd. simpl. rewrite Hexp.
      destruct Hrcargo; repeat (case_decide; simpl); try done; try lia;
        exfalso; intuition (try congruence; try lia).
    + intros Hexp Hsus. unfold Trips.create, Trips.validate. run_monad.
      rewrite Hrv, Hrd, Hv, Hd. simpl. rewrite Hexp.
      destruct Hrcargo; repeat (case_decide; simpl); try done; try lia;
        exfalso; intuition (try congruence; try lia).
Qed.

(** X5. Dispatch composes with complete and with cancel: from a state
    in which a draft trip can be dispatched, dispatching it and then
    completing it, on any later day and with a request whose revenue
    and distance (where it carries them) the columns accept, succeeds
    twice and leaves the vehicle available, the driver off_duty and the
    trip completed on the day of completion with the revenue and the
    distance as the columns read them; dispatching and then cancelling
    leaves vehicle and driver free and the trip cancelled, its other
    columns as they were in the draft. *)
Theorem dispatch_then_release today later db k t v d data r km :
  trips db !! k = Some t → t_status t = draft →
  vehicles db !! vehicle_id t = Some v →
  drivers db !! driver_id t = Some d →
  cargo_fits t v →
  Drivers.compliant today d →
  v_status v ≠ in_shop → v_status v ≠ retired →
  no_other_dispatched db k (vehicle_id t) →
  Columns.clean_attr 12 (Trips.rq_revenue data) (revenue t) = Ok r →
  Columns.clean_attr 8 (Trips.rq_distance_km data) (distance_km t) = Ok km →
  ∃ db1, Trips.dispatch_trip today k db = (db1, Ok tt)
    ∧ (∃ db2, Trips.complete_trip later k data db1 = (db2, Ok tt)
         ∧ vehicles db2 !! vehicle_id t
           = Some (mkVehicle (capacity_kg v) (odometer_km v) available
                             (acquisition_cost v))
         ∧ drivers db2 !! driver_id t = Some (mkDriver (license_expiry d) off_duty)
         ∧ trips db2 !! k
           = Some (mkTrip (vehicle_id t) (driver_id t) (cargo_weight_kg t)
                          r km (Some later) completed))
    ∧ (∃ db2, Trips.cancel_trip later k db1 = (db2, Ok tt)
         ∧ vehicles db2 !! vehicle_id t
           = Some (mkVehicle (capacity_kg v) (odometer_km v) available
                             (acquisition_cost v))
         ∧ drivers db2 !! driver_id t = Some (mkDriver (license_expiry d) off_duty)
         ∧ trips db2 !! k
           = Some (mkTrip (vehicle_id t) (driver_id t) (cargo_weight_kg t)
                          (revenue t) (distance_km t) (completed_date t) cancelled)).
Proof.
  intros Ht Hs Hv Hd Hcargo Hcomp Hshop Hret Hno Hr Hkm.
  set (db1 := cascaded db k (set_t_status dispatched t) on_trip on_duty).
  assert (trips db1 !! k = Some (set_t_status dispatched t)) as Ht1.
  { simpl. by rewrite lookup_insert_eq. }
  assert (vehicles db1 !! vehicle_id t = Some (set_v_status on_trip v)) as Hv1.
  { simpl. by rewrite lookup_alter_eq, Hv. }
  assert (drivers db1 !! driver_id t = Some (set_d_status on_duty d)) as Hd1.
  { simpl. by rewrite lookup_alter_eq, Hd. }
  exists db1. split; [by eapply dispatch_ok|]. split.
  - eexists. split.
    + by apply (complete_ok later db1 k (set_t_status dispatched t)
                            (set_v_status on_trip v) data r km).
    + simpl. by rewrite !lookup_alter_eq, lookup_insert_eq, Hv, Hd.
  - eexists. split.
    + by apply (cancel_ok later db1 k (set_t_status dispatched t)
                          (set_v_status on_trip v)).
    + simpl. by rewrite !lookup_alter_eq, lookup_insert_eq, Hv, Hd.
Qed.

(** X6. Editing a dispatched trip in place (a PATCH that leaves
    vehicle, driver, cargo and status alone, or repeats status
    dispatched) does not cascade again: the trip row is rewritten and
    the vehicle and driver tables are untouched. *)
Theorem update_dispatched_in_place today db k t v d p :
  trips db !! k = Some t → t_status t = dispatched →
  Trips.p_vehicle p = None → Trips.p_driver p = None →
  Trips.p_cargo_weight_kg p = None →
  Trips.p_t_status p = None ∨ Trips.p_t_status p = Some dispatched →
  vehicles db !! vehicle_id t = Some v → v_status v = on_trip →
  drivers db !! driver_id t = Some d → Drivers.compliant today d →
  cargo_fits t v →
  no_other_dispatched db k (vehicle_id t) →
  Trips.update today k p db = (with_trip db k (Trips.apply_patch p t), Ok tt).
Proof.
  intros Ht Hs Hpv Hpd Hpc Hps Hv Hon Hd Hcomp Hcargo Hno.
  assert (t_status (Trips.apply_patch p t) = dispatched) as Hs'.
  { unfold Trips.apply_patch. simpl. destruct Hps as [-> | ->]; done. }
  assert (Trips.clean today (Some k) (Trips.apply_patch p t) db = Ok tt) as Hclean.
  { rewrite (clean_ext today (Some k) db _ (set_t_status dispatched t)).
    - apply (clean_dispatched_ok today db k t v d); try done;
        rewrite Hon; discriminate.
    - unfold Trips.apply_patch. simpl. by rewrite Hpc.
    - unfold Trips.apply_patch. simpl. by rewrite Hpv.
    - unfold Trips.apply_patch. simpl. by rewrite Hpd.
    - done. }
  pose proof (save_plain today db k t (Trips.apply_patch p t) Ht Hclean) as Hsave.
  destruct Hcomp as [Hsusp Hexp].
  unfold Trips.update, Trips.validate. run_monad.
  rewrite Ht. simpl. rewrite Hpv, Hpd, Hpc. simpl. rewrite Hv, Hd. simpl.
  rewrite Hexp.
  rewrite Hsave; [| done | rewrite Hs'; intros [?|?]; done].
  destruct Hps as [-> | ->]; simpl;
    repeat (case_decide; simpl); try done; try lia; exfalso; intuition congruence.
Qed.

(** X7. Posting a draft trip that passes the serializer and the model
    checks stores it under an unused key and writes nothing else: the
    vehicle, the driver and every trip already stored are as they
    were. *)
Theorem create_draft today db row v d :
  t_status row = draft →
  vehicles db !! vehicle_id row = Some v →
  drivers db !! driver_id row = Some d →
  cargo_fits row v →
  Drivers.compliant today d →
  Trips.create today row db
  = (with_trip db (new_pk (trips db)) row, Ok (new_pk (trips db)))
  ∧ ∀ k' t', trips db !! k' = Some t' →
             trips (with_trip db (new_pk (trips db)) row) !! k' = Some t'.
Proof.
  intros Hs Hv Hd Hcargo [Hsusp Hexp]. split.
  - unfold Trips.create, Trips.validate, Trips.save, Trips.clean. run_monad.
    rewrite Hv, Hd. simpl. rewrite Hexp, Hs. simpl.
    destruct Hcargo; repeat (case_decide; simpl); try done; try lia;
      try (exfalso; intuition (try congruence; try lia));
      rewrite ?Hv, ?Hd; simpl; rewrite ?Hexp; simpl;
      repeat (case_decide; simpl); try done; try lia;
      exfalso; intuition (try congruence; try lia).
  - intros k' t' Hk'. simpl. rewrite lookup_insert_ne; [done|].
    intros <-. by rewrite new_pk_fresh in Hk'.
Qed.

End LifecycleFacts.

(** ** What holds a vehicle or a driver back *)

Module HoldFacts.
Import TripFacts LifecycleFacts.

(** The complete action on a record that is not yet completed. *)
Lemma complete_open_ok today db k rec :
  maintenance_records db !! k = Some rec →
  m_status rec ≠ done →
  Maint.complete today k db = (serviced db k (closed today rec) available, Ok tt).
Proof.
  intros Hk Hs. unfold Maint.complete, Maint.save. run_monad. rewrite Hk. simpl.
  destruct rec as [vid st [cd|] c]; simpl in *;
    repeat (case_decide; simpl); try done; try (exfalso; intuition congruence);
    unfold serviced, closed; simpl; rewrite ?alter_insert_eq; done.
Qed.

(** X8. Posting a maintenance record that is pending or in progress
    sends its vehicle to the shop whatever the vehicle was doing (on a
    trip and retired included): the vehicle is stored as in_shop, its
    other columns as they were, the record is stored as posted under an
    unused key, and trips and drivers are not touched.  The request is
    answered with the key of the record when it carries a start date,
    and with a server error, after the same writes, when it carries
    none. *)
Theorem create_open_record today db row v start_date :
  m_status row = pending ∨ m_status row = in_progress →
  vehicles db !! m_vehicle_id row = Some v →
  let k := new_pk (maintenance_records db) in
  maintenance_records db !! k = None
  ∧ Maint.post today start_date row db
    = (mkDB (<[m_vehicle_id row := mkVehicle (capacity_kg v) (odometer_km v) in_shop
                                              (acquisition_cost v)]> (vehicles db))
            (drivers db) (trips db)
            (<[k := row]> (maintenance_records db)),
       match start_date with
       | Some _ => Ok k
       | None => Fail ServerError
       end).
Proof.
  intros Hs Hv. simpl. split; [apply new_pk_fresh|].
  rewrite (MaintFacts.post_ok today db row v start_date Hv).
  unfold serviced, logged, shop_status.
  rewrite !decide_False by (destruct Hs; congruence).
  by rewrite (MaintFacts.alter_stored _ _ _ v Hv).
Qed.


(** X10. The shop holds the vehicle. From a state in which a draft
    trip can be dispatched, posting an open maintenance record for its
    vehicle (answered with the key of the record if the request carries
    a start date, with a server error after the writes if not) makes
    the dispatch fail with VehicleUnavailable; once the record is
    completed the same dispatch succeeds and puts the vehicle on the
    trip. *)
Theorem shop_blocks_dispatch today db k t v d row start_date :
  trips db !! k = Some t → t_status t = draft →
  vehicles db !! vehicle_id t = Some v →
  drivers db !! driver_id t = Some d →
  cargo_fits t v →
  Drivers.compliant today d →
  no_other_dispatched db k (vehicle_id t) →
  m_vehicle_id row = vehicle_id t →
  m_status row = pending ∨ m_status row = in_progress →
  let r := new_pk (maintenance_records db) in
  ∃ db1 db2 db3,
    Maint.post today start_date row db
    = (db1, match start_date with
            | Some _ => Ok r
            | None => Fail ServerError
            end)
    ∧ Trips.dispatch_trip today k db1 = (db1, Fail VehicleUnavailable)
    ∧ Maint.complete today r db1 = (db2, Ok tt)
    ∧ Trips.dispatch_trip today k db2 = (db3, Ok tt)
    ∧ vehicles db3 !! vehicle_id t
      = Some (mkVehicle (capacity_kg v) (odometer_km v) on_trip (acquisition_cost v)).
Proof.
  intros Ht Hs Hv Hd Hcargo Hcomp Hno Hrow Hopen. simpl.
  set (r := new_pk (maintenance_records db)).
  set (db1 := serviced db r row in_shop).
  set (db2 := serviced db1 r (closed today row) available).
  assert (m_status row ≠ done) as Hnd by (destruct Hopen; congruence).
  assert (vehicles db1 !! vehicle_id t = Some (set_v_status in_shop v)) as Hv1.
  { simpl. by rewrite Hrow, lookup_alter_eq, Hv. }
  assert (vehicles db2 !! vehicle_id t = Some (set_v_status available v)) as Hv2.
  { simpl. by rewrite Hrow, !lookup_alter_eq, Hv. }
  exists db1, db2. eexists. split; [|split; [|split; [|split]]].
  - rewrite (MaintFacts.post_ok today db row v start_date) by (by rewrite Hrow).
    unfold logged, shop_status. by rewrite !decide_False by done.
  - apply (dispatch_refused today db1 k t _ Ht Hs).
    apply (clean_refuses_unavailable today db1 (Some k) _ (set_v_status in_shop v) d);
      try done. by left.
  - apply (complete_open_ok today db1 r row); [|done].
    simpl. by rewrite lookup_insert_eq.
  - by apply (dispatch_ok today db2 k t (set_v_status available v) d).
  - simpl. by rewrite Hrow, !lookup_alter_eq, Hv.
Qed.

(** X20. A suspension holds the driver. From a state in which a draft
    trip can be dispatched and its driver is not on duty, suspending
    the driver makes the dispatch fail with DriverSuspended; once the
    driver is reinstated the same dispatch succeeds and puts the driver
    on duty. *)
Theorem suspension_blocks_dispatch today db k t v d :
  trips db !! k = Some t → t_status t = draft →
  vehicles db !! vehicle_id t = Some v →
  drivers db !! driver_id t = Some d →
  cargo_fits t v →
  Drivers.compliant today d →
  v_status v ≠ in_shop → v_status v ≠ retired →
  no_other_dispatched db k (vehicle_id t) →
  d_status d ≠ on_duty →
  ∃ db1 db2 db3,
    Drivers.suspend (driver_id t) db = (db1, Ok tt)
    ∧ Trips.dispatch_trip today k db1 = (db1, Fail DriverSuspended)
    ∧ Drivers.reinstate (driver_id t) db1 = (db2, Ok tt)
    ∧ Trips.dispatch_trip today k db2 = (db3, Ok tt)
    ∧ drivers db3 !! driver_id t = Some (set_d_status on_duty d).
Proof.
  intros Ht Hs Hv Hd Hcargo [Hsusp Hexp] Hshop Hret Hno Hduty.
  set (db1 := with_driver db (driver_id t) (set_d_status suspended d)).
  set (db2 := with_driver db1 (driver_id t) (set_d_status off_duty d)).
  assert (drivers db1 !! driver_id t = Some (set_d_status suspended d)) as Hd1.
  { simpl. by rewrite lookup_insert_eq. }
  assert (drivers db2 !! driver_id t = Some (set_d_status off_duty d)) as Hd2.
  { simpl. by rewrite lookup_insert_eq. }
  exists db1, db2. eexists. split; [|split; [|split; [|split]]].
  - unfold Drivers.suspend. run_monad. rewrite Hd. simpl. by case_decide.
  - apply (dispatch_refused today db1 k t _ Ht Hs).
    by apply (clean_refuses_driver today db1 (Some k) (set_t_status dispatched t) v
                (set_d_status suspended d)); try done; by right.
  - unfold Drivers.reinstate. run_monad. by rewrite lookup_insert_eq.
  - by apply (dispatch_ok today db2 k t v (set_d_status off_duty d)).
  - simpl. by rewrite lookup_alter_eq, lookup_insert_eq.
Qed.

(** X22. Retirement. Retiring a vehicle that is on a trip is refused
    with VehicleBusy and writes nothing.  Retiring any other vehicle
    stores it as retired, its other columns as they were; retiring it
    again changes nothing; and a draft trip on it, dispatchable in
    every other respect, is then refused with VehicleUnavailable. *)
Theorem retirement_holds today db j v :
  vehicles db !! j = Some v →
  (v_status v = on_trip → Vehicles.retire j db = (db, Fail VehicleBusy))
  ∧ (v_status v ≠ on_trip →
     let db1 := with_vehicle db j (set_v_status retired v) in
     Vehicles.retire j db = (db1, Ok tt)
     ∧ Vehicles.retire j db1 = (db1, Ok tt)
     ∧ ∀ k t d,
         trips db !! k = Some t → t_status t = draft → vehicle_id t = j →
         drivers db !! driver_id t = Some d →
         cargo_fits t v → Drivers.compliant today d →
         Trips.dispatch_trip today k db1 = (db1, Fail VehicleUnavailable)).
Proof.
  intros Hv. destruct (VehicleFacts.retire_guard db j v Hv) as [Hbusy Hok].
  split; [done|]. intros Hidle. simpl. split; [by apply Hok|]. split.
  - destruct (VehicleFacts.retire_guard (with_vehicle db j (set_v_status retired v))
                j (set_v_status retired v)) as [_ Hagain].
    { simpl. by rewrite lookup_insert_eq. }
    rewrite Hagain by done. f_equal.
    unfold with_vehicle. simpl. by rewrite insert_insert_eq.
  - intros k t d Ht Hs Hj Hd Hcargo Hcomp.
    apply (dispatch_refused today (with_vehicle db j (set_v_status retired v)) k t);
      [done | done |].
    apply (clean_refuses_unavailable today _ (Some k) _ (set_v_status retired v) d);
      try done.
    + simpl. by rewrite Hj, lookup_insert_eq.
    + by right.
Qed.

End HoldFacts.

(** ** One dispatched trip per vehicle, along the lifecycle actions *)

Module InvariantFacts.
Import TripFacts LifecycleFacts.

(** [Trip.save] either raises, having written nothing, or settles. *)
Lemma save_settles today o row db db' k :
  Trips.save today o row db = (db', Ok k) →
  Trips.clean today o row db = Ok tt
  ∧ match o with
    | Some k0 => k = k0 ∧ ∃ old, trips db !! k0 = Some old
                              ∧ db' = settle today k0 row (Some (t_status old)) db
    | None => k = new_pk (trips db) ∧ db' = settle today k row None db
    end.
Proof.
  unfold Trips.save, settle. run_monad.
  destruct (Trips.clean today o row db) as [[]|e]; simpl; [|done].
  destruct o as [k0|]; simpl.
  - destruct (trips db !! k0) as [old|]; simpl; [|done].
    repeat (case_decide; simpl); try (exfalso; intuition congruence);
      intros [= <- <-]; (split; [done|]); (split; [done|]);
      exists old; (split; [done|]);
      repeat (case_decide; simpl); try done; try (exfalso; intuition congruence);
      unfold cascaded; by rewrite ?alter_insert_eq.
  - repeat (case_decide; simpl); try (exfalso; intuition congruence);
      intros [= <- <-]; (split; [done|]); (split; [done|]);
      repeat (case_decide; simpl); try done; try (exfalso; intuition congruence);
      unfold cascaded; by rewrite ?alter_insert_eq.
Qed.

(** What a passed [clean] tells about a row to be stored as dispatched
    under a key it already has. *)
Lemma clean_dispatched_inv today k row db :
  Trips.clean today (Some k) row db = Ok tt →
  t_status row = dispatched →
  ∃ v, vehicles db !! vehicle_id row = Some v
       ∧ (v_status v = on_trip → no_other_dispatched db k (vehicle_id row)).
Proof.
  unfold Trips.clean. run_monad. intros Hclean Hs. rewrite Hs in Hclean.
  destruct (decide (cargo_weight_kg row ≠ 0)) as [Hnz|Hz]; simpl in Hclean.
  - destruct (vehicles db !! vehicle_id row) as [v|] eqn:Hv; simpl in Hclean; [|done].
    exists v. split; [done|]. intros Hon.
    repeat (case_decide; simpl in * ); try done;
      destruct (drivers db !! driver_id row); simpl in *; try done;
      destruct (Drivers.is_license_expired today _); simpl in *; try done;
      repeat (case_decide; simpl in * ); try done.
    intros k' t' Hk' Hne Hvid Hst.
    match goal with
    | H : filter _ _ = ∅ |- _ =>
        by apply (map_filter_empty_not_lookup _ _ k' t' H)
    end.
  - destruct (vehicles db !! vehicle_id row) as [v|] eqn:Hv.
    + exists v. split; [done|]. intros Hon.
      repeat (case_decide; simpl in * ); try done;
        destruct (drivers db !! driver_id row); simpl in *; try done;
        destruct (Drivers.is_license_expired today _); simpl in *; try done;
        repeat (case_decide; simpl in * ); try done.
      intros k' t' Hk' Hne Hvid Hst.
      match goal with
      | H : filter _ _ = ∅ |- _ =>
          by apply (map_filter_empty_not_lookup _ _ k' t' H)
      end.
    + exfalso.
      repeat (case_decide; simpl in * ); try done;
        destruct (drivers db !! driver_id row); simpl in *; try done;
        destruct (Drivers.is_license_expired today _); simpl in *; try done;
        repeat (case_decide; simpl in * ); try done.
Qed.

(** Writes that leave the trips alone and take no vehicle off its
    trip. *)
Lemma consistent_kept db db' :
  trips db' = trips db →
  (∀ k v, vehicles db !! k = Some v → v_status v = on_trip →
          ∃ v', vehicles db' !! k = Some v' ∧ v_status v' = on_trip) →
  consistent db → consistent db'.
Proof.
  intros Htrips Hkept [Hone Hlocks]. split.
  - intros k1 k2 t1 t2. rewrite Htrips. apply Hone.
  - intros k t. rewrite Htrips. intros Hk Hs.
    destruct (Hlocks k t Hk Hs) as (v & Hv & Hon). by apply (Hkept _ v).
Qed.

(** Storing a trip that is not dispatched under an unused key. *)
Lemma consistent_new_idle db k row :
  trips db !! k = None → t_status row ≠ dispatched →
  consistent db → consistent (with_trip db k row).
Proof.
  intros Hfresh Hidle [Hone Hlocks]. split.
  - intros k1 k2 t1 t2. simpl.
    rewrite !lookup_insert_Some.
    intros [[<- <-]|[Hn1 H1]] [[<- <-]|[Hn2 H2]] Hv Hs1 Hs2;
      try done. by apply (Hone k1 k2 t1 t2).
  - intros k1 t1. simpl. rewrite lookup_insert_Some.
    intros [[<- <-]|[Hn1 H1]] Hs1; [done|]. by apply (Hlocks k1 t1).
Qed.

(** [Trip.save] of a stored trip keeps the invariant when the row keeps
    its vehicle and, where it turns dispatched, the vehicle is stored
    and carries no other dispatched trip if it is on a trip. *)
Lemma consistent_settle today k row old db :
  consistent db →
  trips db !! k = Some old →
  vehicle_id row = vehicle_id old →
  (t_status row = dispatched → t_status old ≠ dispatched →
   ∃ v, vehicles db !! vehicle_id row = Some v
        ∧ (v_status v = on_trip → no_other_dispatched db k (vehicle_id row))) →
  consistent (settle today k row (Some (t_status old)) db).
Proof.
  intros [Hone Hlocks] Hold Hvid Hgate. unfold settle.
  destruct (decide (t_status row = dispatched ∧ Some (t_status old) ≠ Some dispatched))
    as [[Hs Hso]|Hnot].
  - (* the trip takes the vehicle *)
    destruct (Hgate Hs ltac:(congruence)) as (v & Hv & Hfree).
    assert (∀ k2 t2, k2 ≠ k → trips db !! k2 = Some t2 →
                     vehicle_id t2 = vehicle_id row → t_status t2 ≠ dispatched)
      as Halone.
    { intros k2 t2 Hne Hk2 Hv2 Hs2.
      destruct (Hlocks k2 t2 Hk2 Hs2) as (v2 & Hv2' & Hon).
      rewrite Hv2, Hv in Hv2'. injection Hv2' as <-.
      by apply (Hfree Hon k2 t2). }
    split.
    + intros k1 k2 t1 t2. simpl. rewrite !lookup_insert_Some.
      intros [[<- <-]|[Hn1 H1]] [[<- <-]|[Hn2 H2]] Hveh Hs1 Hs2; try done.
      * exfalso. by apply (Halone k2 t2).
      * exfalso. by apply (Halone k1 t1).
      * by apply (Hone k1 k2 t1 t2).
    + intros k1 t1. simpl. rewrite lookup_insert_Some.
      intros [[<- <-]|[Hn1 H1]] Hs1.
      * rewrite lookup_alter_eq, Hv. simpl. by eexists.
      * destruct (Hlocks k1 t1 H1 Hs1) as (v1 & Hv1 & Hon).
        rewrite lookup_alter. case_decide as Hsame.
        -- rewrite Hsame, Hv1. simpl. by eexists.
        -- by exists v1.
  - destruct (decide ((t_status row = completed ∨ t_status row = cancelled)
                      ∧ Some (t_status old) = Some dispatched)) as [[Hs Hso]|Hnot2].
    + (* the trip lets go of the vehicle *)
      injection Hso as Hso.
      set (row' := if decide (t_status row = completed)
                   then set_completed_date (Some today) row else row).
      assert (t_status row' ≠ dispatched) as Hidle.
      { subst row'. case_decide; simpl; destruct Hs; congruence. }
      assert (vehicle_id row' = vehicle_id row) as Hvid'.
      { subst row'. by case_decide. }
      split.
      * intros k1 k2 t1 t2. simpl. rewrite !lookup_insert_Some.
        intros [[<- <-]|[Hn1 H1]] [[<- <-]|[Hn2 H2]] Hveh Hs1 Hs2; try done.
        by apply (Hone k1 k2 t1 t2).
      * intros k1 t1. simpl. rewrite lookup_insert_Some.
        intros [[<- <-]|[Hn1 H1]] Hs1; [done|].
        destruct (Hlocks k1 t1 H1 Hs1) as (v1 & Hv1 & Hon).
        rewrite lookup_alter_ne; [by exists v1|].
        rewrite Hvid', Hvid. intros Hsame.
        apply Hn1. symmetry. by apply (Hone k1 k t1 old).
    + (* the row is rewritten in place *)
      assert (t_status row = dispatched → t_status old = dispatched) as Hstay.
      { intros Hs. destruct (decide (t_status old = dispatched)); [done|].
        exfalso. apply Hnot. split; [done | congruence]. }
      split.
      * intros k1 k2 t1 t2. simpl. rewrite !lookup_insert_Some.
        intros [[<- <-]|[Hn1 H1]] [[<- <-]|[Hn2 H2]] Hveh Hs1 Hs2; try done.
        -- exfalso. apply Hn2. apply (Hone k k2 old t2); auto; congruence.
        -- exfalso. apply Hn1. symmetry. apply (Hone k1 k t1 old); auto; congruence.
        -- by apply (Hone k1 k2 t1 t2).
      * intros k1 t1. simpl. rewrite lookup_insert_Some.
        intros [[<- <-]|[Hn1 H1]] Hs1.
        -- rewrite Hvid. apply (Hlocks k old Hold). auto.
        -- by apply (Hlocks k1 t1).
Qed.

Lemma create_inv today row db db' :
  void (Trips.create today row) db = (db', Ok tt) →
  ∃ k, Trips.save today None row db = (db', Ok k).
Proof.
  unfold void, Trips.create. run_monad.
  destruct (vehicles db !! vehicle_id row); simpl; [|done].
  destruct (drivers db !! driver_id row); simpl; [|done].
  destruct (Trips.validate _ _ _ _ _); simpl; [|done].
  destruct (Trips.save today None row db) as [db1 [k|e]]; [|done].
  intros [= <-]. by exists k.
Qed.

(** One request of the lifecycle keeps the invariant. *)
Lemma step_consistent r db :
  lifecycle_only r → consistent db → consistent (Api.step db r).
Proof.
  intros Hr Hdb. unfold Api.step.
  assert (¬ undated r) as Hdated.
  { unfold undated, lifecycle_only in *.
    destruct (Api.op r) as [| | | | | | | | | | | |[sd|] row|]; tauto. }
  destruct (Api.handle r db) as [db' [[]|e]] eqn:Hrun; simpl;
    [| by rewrite (EffectFacts.all_or_nothing_handle r Hdated db db' e Hrun)].
  unfold lifecycle_only in Hr. unfold Api.handle in Hrun.
  destruct (Api.op r) as [row|k p|k row|k|row|k|k|row|k p|k|k data|k|sd row|k];
    try done.
  - (* VehicleCreate *)
    unfold Vehicles.create, Vehicles.validate_odometer_km in Hrun. run_monad.
    injection Hrun as <-. apply (consistent_kept db); [done | | done].
    intros j v Hj Hon. exists v. split; [|done]. simpl.
    rewrite lookup_insert_ne; [done|]. intros <-. by rewrite new_pk_fresh in Hj.
  - (* VehicleUpdate *)
    unfold Vehicles.update, Vehicles.validate_odometer_km in Hrun. run_monad.
    destruct (vehicles db !! k) as [inst|] eqn:Hk; simpl in Hrun; [|done].
    assert (db' = with_vehicle db k (Vehicles.apply_patch p inst)) as ->.
    { destruct (Vehicles.p_odometer_km p); simpl in Hrun;
        [case_decide; simpl in Hrun; [done|]|]; by injection Hrun as <-. }
    apply (consistent_kept db); [done | | done].
    intros j v Hj Hon. simpl. rewrite lookup_insert. case_decide as Hkj.
    + subst j. rewrite Hk in Hj. injection Hj as ->.
      eexists. split; [done|]. simpl. by rewrite Hr.
    + by exists v.
  - (* VehicleRetire *)
    unfold Vehicles.retire in Hrun. run_monad.
    destruct (vehicles db !! k) as [inst|] eqn:Hk; simpl in Hrun; [|done].
    case_decide as Hon'; simpl in Hrun; [done|]. injection Hrun as <-.
    apply (consistent_kept db); [done | | done].
    intros j v Hj Hon. simpl. rewrite lookup_insert. case_decide as Hkj.
    + subst j. rewrite Hk in Hj. by injection Hj as ->.
    + by exists v.
  - (* DriverCreate *)
    unfold Drivers.create in Hrun. run_monad. injection Hrun as <-.
    apply (consistent_kept db); [done | | done]. intros j v Hj Hon. by exists v.
  - (* DriverSuspend *)
    unfold Drivers.suspend in Hrun. run_monad.
    destruct (drivers db !! k); simpl in Hrun; [|done].
    case_decide; simpl in Hrun; [done|]. injection Hrun as <-.
    apply (consistent_kept db); [done | | done]. intros j v Hj Hon. by exists v.
  - (* DriverReinstate *)
    unfold Drivers.reinstate in Hrun. run_monad.
    destruct (drivers db !! k); simpl in Hrun; [|done]. injection Hrun as <-.
    apply (consistent_kept db); [done | | done]. intros j v Hj Hon. by exists v.
  - (* TripCreate *)
    apply create_inv in Hrun. destruct Hrun as (k & Hsave).
    apply save_settles in Hsave. destruct Hsave as (_ & -> & ->).
    unfold settle. rewrite decide_False by (intros [? _]; done).
    rewrite decide_False by (intros [_ ?]; done).
    apply consistent_new_idle; [apply new_pk_fresh | done | done].
  - (* TripUpdate *)
    destruct Hr as [Hps Hpv].
    unfold Trips.update in Hrun. run_monad.
    destruct (trips db !! k) as [t|] eqn:Hk; simpl in Hrun; [|done].
    rewrite Hpv in Hrun. simpl in Hrun.
    destruct (vehicles db !! vehicle_id t); simpl in Hrun; [|done].
    destruct (drivers db !! _); simpl in Hrun; [|done].
    destruct (Trips.validate _ _ _ _ _); simpl in Hrun; [|done].
    destruct (Trips.save (Api.now r) (Some k) (Trips.apply_patch p t) db)
      as [db1 [k1|e1]] eqn:Hsave; simpl in Hrun; [|done].
    injection Hrun as <-.
    apply save_settles in Hsave. destruct Hsave as (_ & _ & old & Hold & ->).
    rewrite Hk in Hold. injection Hold as <-.
    apply consistent_settle; [done | done | |].
    + unfold Trips.apply_patch. simpl. by rewrite Hpv.
    + unfold Trips.apply_patch. simpl. rewrite Hps. simpl. done.
  - (* TripDispatch *)
    unfold Trips.dispatch_trip in Hrun. run_monad.
    destruct (trips db !! k) as [t|] eqn:Hk; simpl in Hrun; [|done].
    case_decide; simpl in Hrun; [done|].
    destruct (Trips.save (Api.now r) (Some k) (set_t_status dispatched t) db)
      as [db1 [k1|e1]] eqn:Hsave; simpl in Hrun; [|done].
    injection Hrun as <-.
    apply save_settles in Hsave. destruct Hsave as (Hclean & _ & old & Hold & ->).
    rewrite Hk in Hold. injection Hold as <-.
    apply consistent_settle; [done | done | done |].
    intros _ _. by apply (clean_dispatched_inv (Api.now r) k _ db Hclean).
  - (* TripComplete *)
    unfold Trips.complete_trip in Hrun. run_monad.
    destruct (trips db !! k) as [t|] eqn:Hk; simpl in Hrun; [|done].
    case_decide; simpl in Hrun; [done|].
    destruct (Trips.clean_fields data t) as [row|e0] eqn:Hcols; simpl in Hrun; [|done].
    apply clean_fields_inv in Hcols. destruct Hcols as (rv & km & _ & _ & ->).
    destruct (Trips.save (Api.now r) (Some k)
                (set_t_status completed (set_distance_km km (set_revenue rv t))) db)
      as [db1 [k1|e1]] eqn:Hsave; simpl in Hrun; [|done].
    injection Hrun as <-.
    apply save_settles in Hsave. destruct Hsave as (_ & _ & old & Hold & ->).
    rewrite Hk in Hold. injection Hold as <-.
    apply consistent_settle; [done | done | done |].
    intros Hs. done.
  - (* TripCancel *)
    unfold Trips.cancel_trip in Hrun. run_monad.
    destruct (trips db !! k) as [t|] eqn:Hk; simpl in Hrun; [|done].
    case_decide; simpl in Hrun; [done|].
    destruct (Trips.save (Api.now r) (Some k) (set_t_status cancelled t) db)
      as [db1 [k1|e1]] eqn:Hsave; simpl in Hrun; [|done].
    injection Hrun as <-.
    apply save_settles in Hsave. destruct Hsave as (_ & _ & old & Hold & ->).
    rewrite Hk in Hold. injection Hold as <-.
    apply consistent_settle; [done | done | done |]. done.
Qed.

(** X11. Along requests that leave the status columns to the
    lifecycle actions, a vehicle never carries two dispatched trips, and
    every dispatched trip has its vehicle stored as on_trip; the
    requests may fail or succeed in any order. *)
Theorem one_dispatched_along_lifecycle (db : DB) (rs : list Api.Request) :
  consistent db →
  Forall lifecycle_only rs →
  at_most_one_dispatched (Api.run db rs) ∧ locks_held (Api.run db rs).
Proof.
  intros Hdb Hrs. change (consistent (Api.run db rs)).
  revert db Hdb. induction Hrs as [|r rs Hr Hrs IH]; intros db Hdb; simpl.
  - done.
  - apply IH. by apply step_consistent.
Qed.

(** The empty database is consistent. *)
Lemma consistent_empty : consistent empty_db.
Proof.
  split.
  - intros k1 k2 t1 t2. simpl. by rewrite lookup_empty.
  - intros k t. simpl. by rewrite lookup_empty.
Qed.

End InvariantFacts.

(** ** The read side *)

Module ReportFacts.
Import TripFacts LifecycleFacts.

Lemma sum_of_insert {A} (f : A → Z) (rows : gmap pk A) k x :
  rows !! k = None →
  Reports.sum_of f (<[k := x]> rows) = f x + Reports.sum_of f rows.
Proof.
  intros Hk. unfold Reports.sum_of.
  rewrite map_fold_insert_L; [done | intros; lia | done].
Qed.

Lemma count_insert {A} (P : A → Prop) `{∀ x, Decision (P x)} (table : gmap pk A) k x :
  table !! k = None →
  Reports.count P (<[k := x]> table)
  = ((if decide (P x) then 1 else 0) + Reports.count P table)%nat.
Proof.
  intros Hk. unfold Reports.count. rewrite map_filter_insert. simpl.
  case_decide.
  - rewrite map_size_insert_None; [done|].
    apply map_lookup_filter_None. by left.
  - by rewrite delete_id.
Qed.

Lemma count_empty {A} (P : A → Prop) `{∀ x, Decision (P x)} :
  Reports.count P (∅ : gmap pk A) = 0%nat.
Proof. unfold Reports.count. by rewrite map_filter_empty, map_size_empty. Qed.

(** X12. GET /api/drivers/available/ lists exactly the drivers whose
    [is_available] property holds on the same date. *)
Theorem available_drivers_spec today db k d :
  Reports.available_drivers today db !! k = Some d
  ↔ drivers db !! k = Some d ∧ Reports.driver_is_available today d = true.
Proof.
  unfold Reports.available_drivers, Reports.driver_is_available,
    Drivers.is_license_expired.
  rewrite map_lookup_filter_Some. simpl.
  rewrite andb_true_iff, negb_true_iff, bool_decide_eq_true, bool_decide_eq_false.
  split; intros (Hk & Hs & He); repeat split; try done; lia.
Qed.

(** X13. The compliance alerts classify.  The alerts view reads the
    server's local date, [compliance_status] the UTC date.  A stored
    driver is on the suspended list exactly when the compliance status
    is SUSPENDED, on whatever dates.  When the two dates are the same
    day, a stored driver is on the expired list or on the suspended
    list exactly when the compliance status is not COMPLIANT.  No
    driver is both on the expired and on the expiring list of one day;
    and a driver that the available view lists on a day is on neither
    the expired nor the suspended list of that day. *)
Theorem alerts_classify local utc db k d :
  drivers db !! k = Some d →
  let alerts := Reports.compliance_alerts local db in
  (is_Some (Reports.suspended_drivers alerts !! k)
   ↔ Reports.compliance_status utc d = Reports.SUSPENDED)
  ∧ (local = utc →
     (is_Some (Reports.expired_license alerts !! k)
      ∨ is_Some (Reports.suspended_drivers alerts !! k)
      ↔ Reports.compliance_status utc d ≠ Reports.COMPLIANT))
  ∧ ¬ (is_Some (Reports.expired_license alerts !! k)
       ∧ is_Some (Reports.expiring_within_30_days alerts !! k))
  ∧ (is_Some (Reports.available_drivers local db !! k) →
     Reports.expired_license alerts !! k = None
     ∧ Reports.suspended_drivers alerts !! k = None).
Proof.
  intros Hk. simpl.
  unfold Reports.available_drivers, Reports.compliance_status,
    Drivers.is_license_expired, is_Some.
  setoid_rewrite map_lookup_filter_Some.
  rewrite !map_lookup_filter_None. simpl.
  split; [split|split; [intros <-; split|split; [|intros Havail; split]]].
  - intros (d' & Hd' & Hs). rewrite Hk in Hd'. injection Hd' as <-.
    by rewrite decide_True.
  - case_decide as Hs; [intros _; by exists d|].
    by case_bool_decide.
  - intros [(d' & Hd' & He)|(d' & Hd' & Hs)]; rewrite Hk in Hd';
      injection Hd' as <-.
    + case_decide; [done|]. rewrite bool_decide_eq_true_2; done.
    + by rewrite decide_True.
  - case_decide as Hs; [intros _; right; by exists d|].
    case_bool_decide as He; [intros _; left; by exists d | done].
  - intros [(d1 & Hd1 & He1) (d2 & Hd2 & He2 & _)].
    rewrite Hk in Hd1, Hd2. injection Hd1 as <-. injection Hd2 as <-. lia.
  - right. intros d' Hd'. rewrite Hk in Hd'. injection Hd' as <-.
    destruct Havail as (d1 & Hd1 & _ & He). rewrite Hk in Hd1.
    injection Hd1 as <-. lia.
  - right. intros d' Hd'. rewrite Hk in Hd'. injection Hd' as <-.
    destruct Havail as (d1 & Hd1 & Hs & _). rewrite Hk in Hd1.
    injection Hd1 as <-. congruence.
Qed.

(** X14. The dashboard counts add up. The four vehicle counts (on
    trip, available, in shop, retired) sum to the number of vehicles;
    the three trip counts it reports fall short of the number of trips
    by the number of cancelled trips; the on-duty and suspended drivers
    together are at most the drivers. *)
Theorem dashboard_counts_add_up today db :
  let c := Reports.dashboard_counts today db in
  (Reports.active_fleet c + Reports.vehicles_available c
   + Reports.vehicles_in_shop c + Reports.vehicles_retired c
   = Reports.total_vehicles c)%nat
  ∧ (Reports.trips_in_draft c + Reports.trips_dispatched c
     + Reports.trips_completed c
     + Reports.count (fun t => t_status t = cancelled) (trips db)
     = Reports.total_trips c)%nat
  ∧ (Reports.drivers_on_duty c + Reports.drivers_suspended c
     ≤ Reports.total_drivers c)%nat.
Proof.
  simpl. repeat split.
  - induction (vehicles db) as [|k v m Hk IH] using map_ind.
    + by rewrite !count_empty, map_size_empty.
    + rewrite !count_insert, map_size_insert_None by done.
      destruct (v_status v); repeat case_decide; try done; lia.
  - induction (trips db) as [|k t m Hk IH] using map_ind.
    + by rewrite !count_empty, map_size_empty.
    + rewrite !count_insert, map_size_insert_None by done.
      destruct (t_status t); repeat case_decide; try done; lia.
  - induction (drivers db) as [|k d m Hk IH] using map_ind.
    + by rewrite !count_empty, map_size_empty.
    + rewrite !count_insert, map_size_insert_None by done.
      destruct (d_status d); repeat case_decide; try done; lia.
Qed.


(** What POST /api/maintenance/ stores: the record under an unused
    key, vehicle and cost as posted. *)
Lemma create_stores today db row v :
  vehicles db !! m_vehicle_id row = Some v →
  ∃ row', maintenance_records (Maint.create today row db).1
          = <[new_pk (maintenance_records db) := row']> (maintenance_records db)
          ∧ m_vehicle_id row' = m_vehicle_id row ∧ cost row' = cost row.
Proof.
  intros Hv. unfold Maint.create, Maint.save. run_monad. rewrite Hv. simpl.
  destruct row as [vid st [cd|] c]; simpl;
    repeat (case_decide; simpl); try (exfalso; intuition congruence);
    rewrite ?alter_insert_eq; eexists; (split; [reflexivity|]); done.
Qed.

(** X21. Logging a maintenance record, whatever its status, raises the
    total maintenance cost of its vehicle by the cost of the record and
    leaves the total of every other vehicle as it was. *)
Theorem maintenance_books_cost today db row v :
  vehicles db !! m_vehicle_id row = Some v →
  let db' := (Maint.create today row db).1 in
  Reports.total_maintenance_cost db' (m_vehicle_id row)
  = Reports.total_maintenance_cost db (m_vehicle_id row) + cost row
  ∧ ∀ other, other ≠ m_vehicle_id row →
             Reports.total_maintenance_cost db' other
             = Reports.total_maintenance_cost db other.
Proof.
  intros Hv. simpl.
  destruct (create_stores today db row v Hv) as (row' & Hstored & Hvid & Hcost).
  unfold Reports.total_maintenance_cost. rewrite Hstored. split.
  - rewrite map_filter_insert_True by done.
    rewrite sum_of_insert; [lia|].
    apply map_lookup_filter_None. left. apply new_pk_fresh.
  - intros other Hother.
    rewrite map_filter_insert_not'; [done | simpl; congruence |].
    intros y Hy. by rewrite new_pk_fresh in Hy.
Qed.

End ReportFacts.

(** ** Who may do what *)

Module AccessFacts.
Import Access.

(** X16. The permission classes. [IsManagerOrReadOnly] grants exactly
    when [IsManager] or [ReadOnly] grants; no class grants anything to
    the anonymous user; and whoever passes [IsManager] passes every
    class but [ReadOnly]. *)
Theorem permission_classes_related (u : Requester) (m : Method) :
  has_permission IsManagerOrReadOnly u m
  = has_permission IsManager u m || has_permission ReadOnly u m
  ∧ (∀ p, has_permission p Anonymous m = false)
  ∧ (∀ p, has_permission IsManager u m = true → p ≠ ReadOnly →
          has_permission p u m = true).
Proof.
  split; [|split].
  - destruct u as [|[]], m; reflexivity.
  - intros []; reflexivity.
  - intros p Hm Hp. destruct u as [|[]]; try discriminate Hm.
    destruct p, m; try reflexivity; done.
Qed.

(** X17. A manager is let through at every endpoint with every method;
    the anonymous user is let through at the login, token refresh and
    registration views and nowhere else. *)
Theorem manager_everywhere_anonymous_nowhere (e : Endpoint) (m : Method) :
  check_permissions e (User manager) m = true
  ∧ (check_permissions e Anonymous m = true
     ↔ e = LoginView ∨ e = TokenRefreshView ∨ e = RegisterView).
Proof.
  split.
  - destruct e as [[] []| | | | | | | |]; reflexivity.
  - split.
    + destruct e as [[] []| | | | | | | |]; try discriminate; auto.
    + intros [-> | [-> | ->]]; reflexivity.
Qed.

(** X18. What the permission checks leave to the roles that only read.
    A user with role driver is let through at list and retrieve of the
    driver and of the expense viewset and at no other action of any
    viewset, whatever the method.  An analyst is let through there, at
    every action of the expense viewset, at the ROI report of the
    vehicles and at the efficiency report of the fuel logs, and at
    nothing else. *)
Theorem readers_only_read (v : ViewSet) (a : Action) (m : Method) :
  (check_permissions (Route v a) (User driver) m = true
   ↔ (v = DriverViewSet ∨ v = ExpenseViewSet) ∧ (a = list_ ∨ a = retrieve))
  ∧ (check_permissions (Route v a) (User analyst) m = true
     ↔ (v = DriverViewSet ∧ (a = list_ ∨ a = retrieve))
       ∨ v = ExpenseViewSet
       ∨ (v = VehicleViewSet ∧ a = roi_report)
       ∨ (v = FuelLogViewSet ∧ a = efficiency_report)).
Proof.
  split; split.
  - destruct v, a; try discriminate; auto.
  - intros [[-> | ->] [-> | ->]]; reflexivity.
  - destruct v, a; try discriminate; auto 10.
  - intros [[-> [-> | ->]] | [-> | [[-> ->] | [-> ->]]]]; try reflexivity.
    by destruct a.
Qed.

(** X19. Duties are separate at the permission check.  A dispatcher is
    let through at every action of the trip viewset, at those of the
    vehicle viewset but retire and the ROI report, at those of the fuel
    logs but the efficiency report, and at list and retrieve of drivers
    and expenses: at no action of the maintenance or the user viewset
    and at no write to a driver.  A safety officer is let through at
    every action of the driver and of the maintenance viewset and at
    list and retrieve of expenses: at no action on vehicles, trips,
    fuel logs or users. *)
Theorem duties_are_separate (v : ViewSet) (a : Action) (m : Method) :
  (check_permissions (Route v a) (User dispatcher) m = true
   ↔ v = TripViewSet
     ∨ (v = VehicleViewSet ∧ a ≠ retire ∧ a ≠ roi_report)
     ∨ (v = FuelLogViewSet ∧ a ≠ efficiency_report)
     ∨ ((v = DriverViewSet ∨ v = ExpenseViewSet) ∧ (a = list_ ∨ a = retrieve)))
  ∧ (check_permissions (Route v a) (User safety_officer) m = true
     ↔ v = DriverViewSet ∨ v = MaintenanceViewSet
       ∨ (v = ExpenseViewSet ∧ (a = list_ ∨ a = retrieve))).
Proof.
  split; split.
  - destruct v, a; try discriminate; intros _; auto;
      try (right; left; repeat split; discriminate);
      try (right; right; left; split; [reflexivity | discriminate]);
      auto 10.
  - intros [-> | [(-> & Hr & Hroi) | [(-> & Heff) | [[-> | ->] [-> | ->]]]]];
      try reflexivity; by destruct a.
  - destruct v, a; try discriminate; auto.
  - intros [-> | [-> | [-> [-> | ->]]]]; try reflexivity; by destruct a.
Qed.

End AccessFacts.

(** ** Return on investment *)

Module FinanceFacts.
Import Float64 Scenario2.

(** C9 (as amended). [roi] is zero for a vehicle whose acquisition cost
    is zero.  For any other vehicle it is [round(x, 2)] of the double
    [x] that IEEE binary64 arithmetic (53 bits of precision, round to
    nearest even) yields for
    [((revenue - (fuel + maintenance)) / acquisition_cost) * 100], each
    total converted to a double first: the revenue of the completed
    trips of the vehicle, the cost of its fuel logs and the cost of its
    maintenance records. *)
Theorem roi_in_binary64 fuel_logs db k self :
  (acquisition_cost self = 0 → Finance.roi fuel_logs db k self = S754_zero false)
  ∧ (acquisition_cost self ≠ 0 →
     Finance.roi fuel_logs db k self
     = round2
         (SFmul 53 1024
            (SFdiv 53 1024
               (SFsub 53 1024
                  (of_decimal (Reports.total_revenue db k))
                  (SFadd 53 1024
                     (of_decimal (Finance.total_fuel_cost fuel_logs k))
                     (of_decimal (Reports.total_maintenance_cost db k))))
               (of_decimal (acquisition_cost self)))
            (S754_finite false 0x19000000000000 (-46)))).
Proof.
  unfold Finance.roi, Finance.total_operational_cost.
  split; intros Hcost; case_decide; done.
Qed.

(** C9 (as amended) on the ledger, where the doubles are
    1657.11 - (408.63 + 440.53) = 807.9499999999999, then
    2019.8749999999998, rounded to 2019.87 = 0x1.f8f7ae147ae14p+10; on
    books of 1000.00 earned and 200.00 and 300.00 spent for the same
    vehicle, where every step is exact and the result is 1250.0; and
    on a vehicle that cost nothing. *)
Lemma roi_in_binary64_witness :
  Finance.roi fuel_ledger ledger 1 (mkVehicle 100000 0 available 4000)
  = S754_finite false 0x1f8f7ae147ae14 (-42)
  ∧ Finance.roi {[ 1%positive := Finance.mkFuelLog 1 20000 ]}
      (mkDB ∅ ∅ {[ 1%positive := mkTrip 1 1 0 100000 0 (Some 19000) completed ]}
            {[ 1%positive := mkMaintenance 1 done (Some 19000) 30000 ]})
      1 (mkVehicle 100000 0 available 4000)
    = S754_finite false 0x13880000000000 (-42)
  ∧ Finance.roi fuel_ledger ledger 1 (mkVehicle 100000 0 available 0)
    = S754_zero false.
Proof.
  destruct (roi_in_binary64 fuel_ledger ledger 1 (mkVehicle 100000 0 available 4000))
    as [_ Hfloat].
  destruct (roi_in_binary64 {[ 1%positive := Finance.mkFuelLog 1 20000 ]}
              (mkDB ∅ ∅ {[ 1%positive := mkTrip 1 1 0 100000 0 (Some 19000) completed ]}
                    {[ 1%positive := mkMaintenance 1 done (Some 19000) 30000 ]})
              1 (mkVehicle 100000 0 available 4000))
    as [_ Hexact].
  destruct (roi_in_binary64 fuel_ledger ledger 1 (mkVehicle 100000 0 available 0))
    as [Hzero _].
  split; [|split; [|apply Hzero; reflexivity]].
  - rewrite Hfloat; [vm_compute; reflexivity | simpl; lia].
  - rewrite Hexact; [vm_compute; reflexivity | simpl; lia].
Defined.

(** The conversions on values whose doubles are known: 1657.11 is
    0x1.9e470a3d70a3dp+10, 0.1 is 0x1.999999999999ap-4, -0.05 is
    -0x1.999999999999ap-5; [round(0.125, 2)] is 0.12 (a tie, to the even
    hundredth), [round(2.675, 2)] is 2.67 (the double lies below the
    tie) and [round(-0.001, 2)] is -0.0. *)
Lemma conversions :
  of_decimal 165711 = S754_finite false 0x19e470a3d70a3d (-42)
  ∧ of_decimal 10 = S754_finite false 0x1999999999999a (-56)
  ∧ of_decimal (-5) = S754_finite true 0x1999999999999a (-57)
  ∧ of_int 100 = S754_finite false 0x19000000000000 (-46)
  ∧ round2 (S754_finite false 1 (-3)) = of_decimal 12
  ∧ round2 (div (of_int 2675) (of_int 1000)) = of_decimal 267
  ∧ round2 (div (of_int (-1)) (of_int 1000)) = S754_zero true.
Proof. repeat split; vm_compute; reflexivity. Qed.

(** Against C9 as stated: on the ledger the formula of the claim is
    (1657.11 - 408.63 - 440.53) / 40.00 * 100 = 2019.875 exactly, which
    rounds to 2019.88 (to the even hundredth, and upwards as well); the
    code returns the double 2019.87, because the double it computes,
    2019.8749999999998, lies below the tie. *)
Lemma roi_off_by_a_hundredth :
  let self := mkVehicle 100000 0 available 4000 in
  vehicles ledger !! 1%positive = Some self
  ∧ Reports.total_revenue ledger 1 = 165711
  ∧ Finance.total_fuel_cost fuel_ledger 1 = 40863
  ∧ Reports.total_maintenance_cost ledger 1 = 44053
  ∧ 1000 * ((165711 - 40863 - 44053) * 100) = 2019875 * 4000
  ∧ Finance.roi_spec fuel_ledger ledger 1 self = 201988
  ∧ Finance.roi fuel_ledger ledger 1 self = of_hundredths false 201987
  ∧ Finance.roi fuel_ledger ledger 1 self
    ≠ of_hundredths false (Finance.roi_spec fuel_ledger ledger 1 self).
Proof.
  simpl. repeat split; try (vm_compute; reflexivity).
  vm_compute. intros Heq. discriminate Heq.
Qed.

End FinanceFacts.

(** ** The properties above, on the worked data *)

Module Worked.
Import Api Scenario Scenario2 TripFacts.

(** X1 on the dispatch that the lowered capacity refuses, and on a
    repair of vehicle 1 posted without a start date. *)
Lemma failed_request_writes_nothing_witness :
  (handle (on 19000 (TripDispatch 1)) shrunk).1 = shrunk
  ∧ (handle (on 19000 (MaintenanceCreate None ticket)) yard).2 = Fail ServerError
  ∧ (handle (on 19000 (MaintenanceCreate None ticket)) yard).1
    = serviced yard 1 ticket in_shop.
Proof.
  split.
  - apply (EffectFacts.failed_request_writes_nothing
             (on 19000 (TripDispatch 1)) shrunk _ CapacityExceeded).
    + vm_compute. reflexivity.
    + intros [].
  - destruct (EffectFacts.failed_request_writes_nothing
                (on 19000 (MaintenanceCreate None ticket)) yard
                (handle (on 19000 (MaintenanceCreate None ticket)) yard).1
                ServerError) as [_ Hundated].
    + vm_compute. reflexivity.
    + destruct (Hundated ticket eq_refl) as [(_ & Hnf & _) | (_ & _ & _ & Hdb)];
        [discriminate Hnf|].
      split; [reflexivity | exact Hdb].
Defined.


(** X3 on trip 1 while vehicle 1 is in the shop. *)
Lemma dispatch_unavailable_witness :
  Trips.dispatch_trip 19000 1 in_repair = (in_repair, Fail VehicleUnavailable).
Proof.
  apply (LifecycleFacts.dispatch_unavailable 19000 in_repair 1 haul
           (set_v_status in_shop truck) dana).
  - reflexivity.
  - reflexivity.
  - reflexivity.
  - reflexivity.
  - right. simpl. lia.
  - split; [discriminate | reflexivity].
  - left. reflexivity.
Defined.

(** X4 on trip 1 the day after the licence of driver 1 ran out. *)
Lemma driver_gate_witness :
  Trips.dispatch_trip 20001 1 yard = (yard, Fail LicenseExpired).
Proof.
  destruct (LifecycleFacts.driver_gate 20001 yard 1 haul truck dana)
    as (Hexpired & _).
  - reflexivity.
  - reflexivity.
  - reflexivity.
  - reflexivity.
  - right. simpl. lia.
  - apply Hexpired. reflexivity.
Defined.

(** X5 on trip 1 of the yard. *)
Lemma dispatch_then_release_witness :
  ∃ db1, Trips.dispatch_trip 19000 1 yard = (db1, Ok tt)
    ∧ (∃ db2, Trips.complete_trip 19004 1 backdated db1 = (db2, Ok tt)
         ∧ v_status <$> vehicles db2 !! 1%positive = Some available
         ∧ completed_date <$> trips db2 !! 1%positive = Some (Some 19004))
    ∧ (∃ db2, Trips.cancel_trip 19004 1 db1 = (db2, Ok tt)
         ∧ completed_date <$> trips db2 !! 1%positive = Some None).
Proof.
  destruct (LifecycleFacts.dispatch_then_release 19000 19004 yard 1 haul truck dana
              backdated 200000 15000)
    as (db1 & Hrun & (db2 & Hdone & Hv & _ & Ht) & (db3 & Hcancel & _ & _ & Ht3)).
  - reflexivity.
  - reflexivity.
  - reflexivity.
  - reflexivity.
  - right. simpl. lia.
  - split; [discriminate | reflexivity].
  - discriminate.
  - discriminate.
  - apply Traces.no_dispatched_at_all. vm_compute. reflexivity.
  - reflexivity.
  - reflexivity.
  - exists db1. split; [exact Hrun|]. split.
    + exists db2. split; [exact Hdone|].
      simpl in Hv, Ht. rewrite Hv, Ht. split; reflexivity.
    + exists db3. split; [exact Hcancel|]. simpl in Ht3. rewrite Ht3. reflexivity.
Defined.

(** X6 on trip 1 under way, repriced. *)
Lemma update_dispatched_in_place_witness :
  Trips.update 19000 1 reprice under_way
  = (with_trip under_way 1 (Trips.apply_patch reprice (set_t_status dispatched haul)),
     Ok tt).
Proof.
  apply (LifecycleFacts.update_dispatched_in_place 19000 under_way 1
           (set_t_status dispatched haul) (set_v_status on_trip truck)
           (set_d_status on_duty dana) reprice).
  - reflexivity.
  - reflexivity.
  - reflexivity.
  - reflexivity.
  - reflexivity.
  - left. reflexivity.
  - reflexivity.
  - reflexivity.
  - reflexivity.
  - split; [discriminate | reflexivity].
  - right. simpl. lia.
  - intros k' t' Hk' Hne Hvid Hst.
    apply (bool_decide_unpack (map_Forall
             (fun (j : pk) (x : Trip) => j ≠ 1%positive → t_status x ≠ dispatched)
             (trips under_way))) in Hk'; [by apply Hk' | vm_compute; exact I].
Defined.

(** X7 on a third draft posted to the yard. *)
Lemma create_draft_witness :
  Trips.create 19000 crate yard = (with_trip yard 3 crate, Ok 3%positive)
  ∧ trips (with_trip yard 3 crate) !! 1%positive = Some haul.
Proof.
  destruct (LifecycleFacts.create_draft 19000 yard crate truck eli) as [Hrun Hold].
  - reflexivity.
  - reflexivity.
  - reflexivity.
  - right. simpl. lia.
  - split; [discriminate | reflexivity].
  - split; [exact Hrun|]. apply (Hold 1%positive haul). reflexivity.
Defined.

(** X8 in the depot: a repair posted without a start date for vehicle
    2, which is on a trip. *)
Lemma create_open_record_witness :
  vehicles depot !! 2%positive = Some (mkVehicle 80000 120000 on_trip 750000)
  ∧ Maint.post 19000 None (mkMaintenance 2 pending None 7500) depot
    = (mkDB (<[2%positive := mkVehicle 80000 120000 in_shop 750000]> (vehicles depot))
            (drivers depot) (trips depot)
            {[ 1%positive := mkMaintenance 2 pending None 7500 ]},
       Fail ServerError).
Proof.
  split; [reflexivity|].
  destruct (HoldFacts.create_open_record 19000 depot (mkMaintenance 2 pending None 7500)
              (mkVehicle 80000 120000 on_trip 750000) None) as [_ Hrun].
  - left. reflexivity.
  - reflexivity.
  - exact Hrun.
Defined.


(** X10 on trip 1 and a repair of vehicle 1. *)
Lemma shop_blocks_dispatch_witness :
  ∃ db1 db2 db3,
    Maint.post 19000 (Some 19000) ticket yard = (db1, Ok 1%positive)
    ∧ Trips.dispatch_trip 19000 1 db1 = (db1, Fail VehicleUnavailable)
    ∧ Maint.complete 19000 1 db1 = (db2, Ok tt)
    ∧ Trips.dispatch_trip 19000 1 db2 = (db3, Ok tt)
    ∧ vehicles db3 !! 1%positive = Some (mkVehicle 100000 500000 on_trip 1000000).
Proof.
  apply (HoldFacts.shop_blocks_dispatch 19000 yard 1 haul truck dana ticket
           (Some 19000)).
  - reflexivity.
  - reflexivity.
  - reflexivity.
  - reflexivity.
  - right. simpl. lia.
  - split; [discriminate | reflexivity].
  - apply Traces.no_dispatched_at_all. vm_compute. reflexivity.
  - reflexivity.
  - left. reflexivity.
Defined.

(** X11 on a day of the yard: dispatches that succeed and fail, a
    completion, a cancellation, retirements refused and granted. *)
Lemma one_dispatched_along_lifecycle_witness :
  at_most_one_dispatched (run empty_db busy_day) ∧ locks_held (run empty_db busy_day).
Proof.
  apply (InvariantFacts.one_dispatched_along_lifecycle empty_db busy_day).
  - apply InvariantFacts.consistent_empty.
  - unfold busy_day. repeat constructor; discriminate.
Defined.

(** X13 on driver 1 of the yard, on a day that is the same in both
    clocks. *)
Lemma alerts_classify_witness :
  (is_Some (Reports.expired_license (Reports.compliance_alerts 19000 yard) !! 1%positive)
   ∨ is_Some (Reports.suspended_drivers (Reports.compliance_alerts 19000 yard)
                !! 1%positive)
   ↔ Reports.compliance_status 19000 dana ≠ Reports.COMPLIANT)
  ∧ Reports.expired_license (Reports.compliance_alerts 19000 yard) !! 1%positive = None
  ∧ Reports.suspended_drivers (Reports.compliance_alerts 19000 yard) !! 1%positive
    = None.
Proof.
  destruct (ReportFacts.alerts_classify 19000 19000 yard 1 dana)
    as (_ & Hsame & _ & Havail).
  - reflexivity.
  - split; [exact (Hsame eq_refl)|].
    apply Havail. exists dana. vm_compute. reflexivity.
Defined.


(** X20 on trip 1 and its driver. *)
Lemma suspension_blocks_dispatch_witness :
  ∃ db1 db2 db3,
    Drivers.suspend (driver_id haul) yard = (db1, Ok tt)
    ∧ Trips.dispatch_trip 19000 1 db1 = (db1, Fail DriverSuspended)
    ∧ Drivers.reinstate (driver_id haul) db1 = (db2, Ok tt)
    ∧ Trips.dispatch_trip 19000 1 db2 = (db3, Ok tt)
    ∧ drivers db3 !! driver_id haul = Some (set_d_status on_duty dana).
Proof.
  apply (HoldFacts.suspension_blocks_dispatch 19000 yard 1 haul truck dana).
  - reflexivity.
  - reflexivity.
  - reflexivity.
  - reflexivity.
  - right. simpl. lia.
  - split; [discriminate | reflexivity].
  - discriminate.
  - discriminate.
  - apply Traces.no_dispatched_at_all. vm_compute. reflexivity.
  - discriminate.
Defined.

(** X21 on a repair of vehicle 1 costing 75. *)
Lemma maintenance_books_cost_witness :
  Reports.total_maintenance_cost (Maint.create 19000 ticket yard).1 1
  = Reports.total_maintenance_cost yard 1 + 7500.
Proof.
  destruct (ReportFacts.maintenance_books_cost 19000 yard ticket truck) as [Hbooked _].
  - reflexivity.
  - exact Hbooked.
Defined.

(** X22 on vehicle 1: refused while on trip 1, granted in the yard,
    after which trip 1 cannot be dispatched. *)
Lemma retirement_holds_witness :
  Vehicles.retire 1 under_way = (under_way, Fail VehicleBusy)
  ∧ Vehicles.retire 1 yard = (with_vehicle yard 1 (set_v_status retired truck), Ok tt)
  ∧ Trips.dispatch_trip 19000 1 (with_vehicle yard 1 (set_v_status retired truck))
    = (with_vehicle yard 1 (set_v_status retired truck), Fail VehicleUnavailable).
Proof.
  split.
  - destruct (HoldFacts.retirement_holds 19000 under_way 1 (set_v_status on_trip truck))
      as [Hbusy _]; [reflexivity|]. apply Hbusy. reflexivity.
  - destruct (HoldFacts.retirement_holds 19000 yard 1 truck) as [_ Hok]; [reflexivity|].
    destruct Hok as (Hrun & _ & Hheld); [discriminate|].
    split; [exact Hrun|].
    apply (Hheld 1%positive haul dana).
    + reflexivity.
    + reflexivity.
    + reflexivity.
    + reflexivity.
    + right. simpl. lia.
    + split; [discriminate | reflexivity].
Defined.

End Worked.
